(** * Trello-export: a shallow embedding of [export.py]

    The development follows the source file top to bottom: the data the
    script handles, the exceptions it raises, a small state-and-error monad
    for its effects (logging through [logger], files through [open]), then
    the functions [find_board], [find_lists], [extract_comments], [get_data],
    [format_card], [save_to_file] and [main], and finally the properties
    established about them. *)

From Stdlib Require Import ZArith String Ascii List DecimalString Lia.
From stdpp Require Import gmap strings list fin_maps.
Import ListNotations.
Local Open Scope string_scope.

(** Concatenation of strings computes under [simpl] in this file. *)
#[local] Arguments String.append !s1 s2 /.

(** ** Python strings *)

(** The line feed, written [\n] in the source. *)
Definition nl : string := String "010"%char EmptyString.

(** [f'{n}'] for an [int]: its decimal numeral, with a minus sign below zero. *)
Definition str_of_int (z : Z) : string := NilZero.string_of_int (Z.to_int z).

(** [needle in hay] on two [str]: [needle] occurs in [hay] as a contiguous
    run of characters (the empty string occurs everywhere). *)
Fixpoint contains (needle hay : string) : bool :=
  String.prefix needle hay ||
  match hay with
  | EmptyString => false
  | String _ rest => contains needle rest
  end.

(** [s.split(sep)] for a one-character separator: the pieces between the
    separators, empty pieces kept, so the result is never the empty list. *)
Fixpoint split (sep : ascii) (s : string) : list string :=
  match s with
  | EmptyString => [EmptyString]
  | String c rest =>
      if Ascii.eqb c sep then EmptyString :: split sep rest
      else match split sep rest with
           | piece :: pieces => String c piece :: pieces
           | [] => [String c EmptyString]
           end
  end.

(** [x in names] for a list of [str]. *)
Definition str_in (x : string) (names : list string) : bool :=
  existsb (String.eqb x) names.

(** Truthiness of an optional [str] ([None] and [''] are falsy). *)
Definition truthy (s : option string) : bool :=
  match s with
  | None => false
  | Some EmptyString => false
  | Some (String _ _) => true
  end.

(** [enumerate(l, start)]. *)
Fixpoint enumerate {A : Type} (l : list A) (start : Z) : list (Z * A) :=
  match l with
  | [] => []
  | x :: rest => (start, x) :: enumerate rest (start + 1)
  end.

(** A lowering function on ASCII letters, used to run the definitions below
    on concrete inputs; [str.lower] itself is a parameter of the model. *)
Definition ascii_lower_char (c : ascii) : ascii :=
  let n := nat_of_ascii c in
  if (65 <=? n)%nat && (n <=? 90)%nat then ascii_of_nat (n + 32) else c.

Fixpoint ascii_lower (s : string) : string :=
  match s with
  | EmptyString => EmptyString
  | String c rest => String (ascii_lower_char c) (ascii_lower rest)
  end.

(** ** Remote records (the [trello] package's objects, as the script reads them) *)

(** One element of [card.get_comments()]: [c["memberCreator"]["fullName"]]
    and [c["data"]["text"]]. *)
Record Comment := {
  memberCreator_fullName : string;
  data_text : string
}.

Record Card := {
  Card_name : string;
  Card_description : string;
  Card_get_comments : list Comment
}.

Record TrelloList := {
  List_name : string;
  List_list_cards : list Card
}.

Record Board := {
  Board_name : string;
  Board_list_lists : list TrelloList
}.

(** [client.list_boards()] either answers with the boards or raises
    [trello.exceptions.Unauthorized] ([None] here). *)
Record TrelloClient := {
  Client_list_boards : option (list Board)
}.

(** ** The script's own records *)

Record CardData := {
  cd_name : string;
  cd_desc : string;
  cd_comments : string
}.

Record ListData := {
  ld_name : string;
  ld_cards : list CardData
}.

(** ** Exceptions *)

(** The three subclasses of [TrelloExportException] the script defines. *)
Inductive TrelloExportException :=
  | CredentialsException
  | NoBoardException
  | NoListsException.

(** The exceptions the model follows: the script's own, and the [TypeError]
    of a subscription the object does not support. Errors of the operating
    system when a file is opened or written, errors of the [trello] package
    other than [Unauthorized] from [list_boards], and a [KeyError] from a
    comment without author or text are not modelled: the model covers the
    runs in which these calls succeed. *)
Inductive Exception :=
  | Export (e : TrelloExportException)
  | TypeError.

(** ** Logging and files *)

Inductive Level := INFO | WARNING | ERROR.

(** A log message is text, except for [f'Saved to {files}'], whose rendering
    of a [set] depends on the interpreter's hashing: it is kept as the set. *)
Inductive Message :=
  | Text (s : string)
  | SavedTo (files : gset string).

Definition LogRecord : Type := Level * Message.

Inductive Mode := ModeA | ModeW.

(** The part of the world the script changes: the records handed to
    [logger], the contents of the files in the working directory, and the
    calls to [open] in the order they were made. *)
Record World := {
  log : list LogRecord;
  files : gmap string string;
  opened : list (string * Mode)
}.

Inductive Outcome (A : Type) :=
  | Returned (a : A)
  | Raised (e : Exception).
Arguments Returned {A} a.
Arguments Raised {A} e.

Definition M (A : Type) : Type := World -> Outcome A * World.

Definition ret {A : Type} (a : A) : M A := fun w => (Returned a, w).

Definition bind {A B : Type} (m : M A) (k : A -> M B) : M B :=
  fun w =>
    match m w with
    | (Returned a, w') => k a w'
    | (Raised e, w') => (Raised e, w')
    end.

Definition raise {A : Type} (e : TrelloExportException) : M A :=
  fun w => (Raised (Export e), w).

Definition raise_TypeError {A : Type} : M A :=
  fun w => (Raised TypeError, w).

(** [let! x := m in k] runs [m], binds its result to [x] and goes on with
    [k]; an exception raised by [m] skips [k]. *)
Notation "'let!' x ':=' m 'in' k" := (bind m (fun x => k))
  (at level 10, x name, m at level 100, k at level 200, only parsing).

Definition logger (l : Level) (m : Message) : M unit :=
  fun w => (Returned tt,
            {| log := log w ++ [(l, m)]; files := files w; opened := opened w |}).

Definition logger_info (s : string) : M unit := logger INFO (Text s).
Definition logger_warning (s : string) : M unit := logger WARNING (Text s).
Definition logger_error (s : string) : M unit := logger ERROR (Text s).

(** [try: body except TrelloExportException: handler]. *)
Definition try_except {A : Type} (body : M A) (handler : M A) : M A :=
  fun w =>
    match body w with
    | (Raised (Export _), w') => handler w'
    | other => other
    end.

(** [open(filename, mode)]: ['w'] creates or truncates the file, ['a']
    creates it when it is absent and leaves it as it is otherwise. The model
    covers the runs in which the operating system grants the call. *)
Definition open_file (filename : string) (mode : Mode) : M unit :=
  fun w => (Returned tt,
            {| log := log w;
               files := match mode with
                        | ModeW => <[filename := EmptyString]> (files w)
                        | ModeA => <[filename := default EmptyString (files w !! filename)]> (files w)
                        end;
               opened := opened w ++ [(filename, mode)] |}).

(** [output.write(s)] on a file opened for writing or appending. *)
Definition write (filename : string) (s : string) : M unit :=
  fun w => (Returned tt,
            {| log := log w;
               files := <[filename := default EmptyString (files w !! filename) ++ s]> (files w);
               opened := opened w |}).

(** [output.writelines(lines)]. *)
Fixpoint writelines (filename : string) (lines : list string) : M unit :=
  match lines with
  | [] => ret tt
  | line :: rest => let! _ := write filename line in writelines filename rest
  end.

(** A value that only logs while it is produced: the elements of the
    generators the script passes around. *)
Definition Logged (A : Type) : Type := list LogRecord * A.

Definition emit {A : Type} (x : Logged A) : M A :=
  fun w => (Returned (snd x),
            {| log := log w ++ fst x; files := files w; opened := opened w |}).

(** What [save_to_file] hands back to its caller. The function has no
    [return] statement, so a call evaluates to Python's [None]. *)
Inductive Value :=
  | PyNone
  | PySet (s : gset string).

(** ** The environment of a run *)

(** [config['trello']] is the section of [real_config.conf] read at import
    time ([None]: the lookup raises [KeyError]); [make_client] is the
    [TrelloClient] the [trello] package builds from these credentials. *)
Record Env := {
  config_trello : option (list (string * string));
  make_client : list (string * string) -> TrelloClient
}.

(** The attributes of [options] that [main] reads. [opt_item_no_numbering] is
    the value of [options['no-numbering']]: [None] when the object does not
    support subscription, as an [argparse.Namespace] does not, in which case
    the expression raises [TypeError]. *)
Record Options := {
  opt_board : string;
  opt_lists : option string;
  opt_prefix : string;
  opt_comments : bool;
  opt_merge : bool;
  opt_item_no_numbering : option bool
}.

(** ** The functions of [export.py] *)

Definition format_card (card : CardData) (count : Z) (no_numbering : bool)
    (prefix : string) : string :=
  let result := cd_name card ++ nl ++ cd_desc card ++ nl in
  let result :=
    if negb no_numbering
    then prefix ++ " " ++ str_of_int count ++ ". " ++ result
    else result in
  let result :=
    match cd_comments card with
    | EmptyString => result
    | String _ _ => result ++ " " ++ nl ++ cd_comments card ++ nl ++ nl
    end in
  result.

Definition extract_comments (card : Card) (export_comments : bool) : string :=
  if negb export_comments then EmptyString
  else
    let comments := Card_get_comments card in
    let comments_str :=
      map (fun c => memberCreator_fullName c ++ ": " ++ data_text c) comments in
    String.concat nl comments_str.

Definition get_data (trello_list : TrelloList) (export_comments : bool)
    : Logged ListData :=
  let cards := List_list_cards trello_list in
  ([(INFO, Text "Getting data from cards")],
   {| ld_name := List_name trello_list;
      ld_cards := map (fun card =>
                         {| cd_name := Card_name card;
                            cd_desc := Card_description card;
                            cd_comments := extract_comments card export_comments |})
                      cards |}).

Definition find_lists (board : Board) (lists_names : option string)
    : M (list TrelloList) :=
  let names :=
    match lists_names with
    | Some s => split ","%char s
    | None => []
    end in
  let matching_lists :=
    if truthy lists_names
    then List.filter (fun list_ => str_in (List_name list_) names)
                     (Board_list_lists board)
    else Board_list_lists board in
  let found := length matching_lists in
  if (found =? 0)%nat then
    let! _ := logger_error "No lists with specified names found" in
    raise NoListsException
  else
    let exported_lists := String.concat ", " (map List_name matching_lists) in
    let! _ := logger_info ("Exporting lists " ++ exported_lists) in
    let! _ :=
      if truthy lists_names && negb (found =? length names)%nat
      then logger_warning ("Found only " ++ str_of_int (Z.of_nat found)
                           ++ " lists out of specified "
                           ++ str_of_int (Z.of_nat (length names)))
      else ret tt in
    ret matching_lists.

(** The body of the [for] loop of [save_to_file], for one element of [data]. *)
Definition save_list (merge : bool) (prefix : string) (no_numbering : bool)
    (board_name : string) (files_ : gset string) (item : Logged ListData)
    : M (gset string) :=
  let! list_data := emit item in
  let '(filename, mode) :=
    if merge then (board_name ++ ".txt", ModeA)
    else (ld_name list_data ++ ".txt", ModeW) in
  let! _ := open_file filename mode in
  let cards_formatted :=
    map (fun '(index, card) => format_card card index no_numbering prefix)
        (enumerate (ld_cards list_data) 1) in
  let! _ := writelines filename cards_formatted in
  ret (files_ ∪ {[ filename ]}).

(** [for x in data: body], threading the local variables of the loop. *)
Fixpoint for_each {A S : Type} (data : list A) (body : S -> A -> M S) (s : S)
    : M S :=
  match data with
  | [] => ret s
  | x :: rest => let! s' := body s x in for_each rest body s'
  end.

Definition save_to_file (data : list (Logged ListData)) (merge : bool)
    (prefix : string) (no_numbering : bool) (board_name : string) : M Value :=
  let! _ := logger_info "Saving to files" in
  let! files_ := for_each data (save_list merge prefix no_numbering board_name) ∅ in
  let! _ := logger INFO (SavedTo files_) in
  ret PyNone.

Definition trello_credentials (env : Env) : M (list (string * string)) :=
  match config_trello env with
  | Some section => ret section
  | None =>
      let! _ := logger_error
        "There’s either no “trello” section in config.conf or no config file at all" in
      raise CredentialsException
  end.

Definition setup_client (env : Env) : M TrelloClient :=
  let! credentials := trello_credentials env in
  ret (make_client env credentials).

Section CaseFolding.

(** [str.lower]: Python lowers by the Unicode tables; the model takes the
    function as a parameter, so every result below holds whatever it is. *)
Variable lower : string -> string.

(** The two comprehension conditions of [find_board]. *)
Definition matches_exactly (board_name : string) (board : Board) : bool :=
  String.eqb (lower (Board_name board)) (lower board_name).

Definition matches_inexactly (board_name : string) (board : Board) : bool :=
  contains (lower board_name) (lower (Board_name board)).

(** [len(l) == 1] is the case [[board]], where [l[0]] is [board];
    [len(l) > 1] is the case of two elements or more. *)
Definition find_board (client : TrelloClient) (board_name : string) : M Board :=
  let! all_boards :=
    match Client_list_boards client with
    | Some boards => ret boards
    | None =>
        let! _ := logger_error
          "Invalid API key, secret, or token. Check your config.conf file" in
        raise CredentialsException
    end in
  let matching_boards := List.filter (matches_exactly board_name) all_boards in
  match matching_boards with
  | [board] =>
      let! _ := logger_info "Found a board with exactly this name" in
      ret board
  | _ :: _ :: _ =>
      let! _ := logger_error "Found more than one board with this name" in
      raise NoBoardException
  | [] =>
      let! _ := logger_info "Didn’t find an exact match" in
      let inexactly_matching :=
        List.filter (matches_inexactly board_name) all_boards in
      match inexactly_matching with
      | [board] =>
          let! _ := logger_info ("Found a board with a matching name: "
                                 ++ Board_name board) in
          ret board
      | _ :: _ :: _ =>
          let! _ := logger_error "Found more than one board with this name" in
          raise NoBoardException
      | [] =>
          let! _ := logger_error
            "Didn’t find neither an exact match nor a similar name" in
          raise NoBoardException
      end
  end.

(** The suite of the [try] statement of [main]. *)
Definition main_suite (env : Env) (options : Options) : M unit :=
  let! client := setup_client env in
  let! board := find_board client (opt_board options) in
  let! lists_ := find_lists board (opt_lists options) in
  let cards_data := map (fun list_ => get_data list_ (opt_comments options)) lists_ in
  let! no_numbering :=
    match opt_item_no_numbering options with
    | Some b => ret b
    | None => raise_TypeError
    end in
  let! _ := save_to_file cards_data (opt_merge options) (opt_prefix options)
                         no_numbering (Board_name board) in
  ret tt.

Definition main (env : Env) (options : Options) : M unit :=
  try_except (main_suite env options)
             (logger_error "Export failed. See details above").

(** *** The vocabulary of the board properties *)

(** A board's name equals the query, case-insensitively. *)
Definition exact_match (query : string) (board : Board) : Prop :=
  lower (Board_name board) = lower query.

(** A board's name holds the query as a substring, case-insensitively. *)
Definition substring_match (query : string) (board : Board) : Prop :=
  exists before after,
    lower (Board_name board) = before ++ lower query ++ after.

End CaseFolding.

(** [x] is the one element of [l] with property [P]. *)
Definition only {A : Type} (P : A -> Prop) (l : list A) (x : A) : Prop :=
  exists l1 l2,
    l = (l1 ++ x :: l2)%list /\ P x /\
    Forall (fun y => ~ P y) l1 /\ Forall (fun y => ~ P y) l2.

(** Two elements of [l] or more have property [P]. *)
Definition several {A : Type} (P : A -> Prop) (l : list A) : Prop :=
  exists l1 x1 l2 x2 l3,
    l = (l1 ++ x1 :: l2 ++ x2 :: l3)%list /\ P x1 /\ P x2.

(** No element of [l] has property [P]. *)
Definition none {A : Type} (P : A -> Prop) (l : list A) : Prop :=
  Forall (fun y => ~ P y) l.

(** The claim that ambiguity and absence are reported by two distinct
    error kinds, at two given calls of [find_board]. *)
Definition distinct_kinds (ambiguous_call not_found_call : Outcome Board) : Prop :=
  exists ambiguous_kind not_found_kind : Exception,
    ambiguous_kind <> not_found_kind
    /\ ambiguous_call = Raised ambiguous_kind
    /\ not_found_call = Raised not_found_kind.

(** *** The vocabulary of the writer properties *)

(** The blocks of one list, glued: the card at position [k] (from 0) is
    formatted with ordinal [k + 1]. *)
Definition blocks (prefix : string) (no_numbering : bool) (list_data : ListData)
    : string :=
  String.concat ""
    (imap (fun k card => format_card card (Z.of_nat k + 1) no_numbering prefix)
          (ld_cards list_data)).

(** The file one list goes to, and the mode it is opened in. *)
Definition target (merge : bool) (board_name : string) (list_data : ListData)
    : string * Mode :=
  if merge then (board_name ++ ".txt", ModeA)
  else (ld_name list_data ++ ".txt", ModeW).

(** The files after one list has been written. *)
Definition written (merge : bool) (prefix : string) (no_numbering : bool)
    (board_name : string) (fsys : gmap string string) (list_data : ListData)
    : gmap string string :=
  let filename := fst (target merge board_name list_data) in
  let kept :=
    if merge then default EmptyString (fsys !! filename) else EmptyString in
  <[filename := kept ++ blocks prefix no_numbering list_data]> fsys.

(** The world before a run: nothing logged, no file, nothing opened. *)
Definition empty_world : World :=
  {| log := []; files := ∅; opened := [] |}.

(** *** The vocabulary of the further properties *)

(** The world [w] after [records] have been handed to [logger]. *)
Definition logged (w : World) (records : list LogRecord) : World :=
  {| log := (log w ++ records)%list; files := files w; opened := opened w |}.

(** The blocks of the last list of [lists_data] that goes to [filename] when
    the lists are written one file per list, if there is one. *)
Definition last_written (prefix : string) (no_numbering : bool)
    (filename : string) (lists_data : list ListData) : option string :=
  blocks prefix no_numbering <$>
    last (List.filter (fun list_data => String.eqb (ld_name list_data ++ ".txt") filename)
                      lists_data).

(** ** Sample data *)

(** Three boards to run [find_board] on. *)
Definition board_work : Board :=
  {| Board_name := "Work"; Board_list_lists := [] |}.
Definition board_workshop : Board :=
  {| Board_name := "Workshop"; Board_list_lists := [] |}.
Definition board_home : Board :=
  {| Board_name := "Home"; Board_list_lists := [] |}.

(** A board with two lists, behind a client that accepts any credentials,
    and options whose item ['no-numbering'] can be read. *)
Definition sample_board : Board :=
  {| Board_name := "Chores";
     Board_list_lists :=
       [ {| List_name := "Todo";
            List_list_cards :=
              [ {| Card_name := "Buy milk"; Card_description := "2 l";
                   Card_get_comments :=
                     [ {| memberCreator_fullName := "Ann"; data_text := "done" |} ] |};
                {| Card_name := "Call Bob"; Card_description := "";
                   Card_get_comments := [] |} ] |};
         {| List_name := "Done";
            List_list_cards :=
              [ {| Card_name := "Pay rent"; Card_description := "May";
                   Card_get_comments := [] |} ] |} ] |}.

Definition sample_env : Env :=
  {| config_trello := Some [("api_key", "k"); ("token", "t")];
     make_client := fun _ => {| Client_list_boards := Some [board_home; sample_board] |} |}.

Definition sample_options : Options :=
  {| opt_board := "chores";
     opt_lists := None;
     opt_prefix := "";
     opt_comments := true;
     opt_merge := false;
     opt_item_no_numbering := Some false |}.

(** * Properties *)

(** ** Strings *)

Lemma append_nil_r (s : string) : s ++ "" = s.
Proof. induction s as [|c s IH]; simpl; congruence. Qed.

Lemma append_assoc (s1 s2 s3 : string) : (s1 ++ s2) ++ s3 = s1 ++ (s2 ++ s3).
Proof. induction s1 as [|c s1 IH]; simpl; congruence. Qed.

Lemma append_eq_nil (s1 s2 : string) : s1 ++ s2 = "" -> s1 = "" /\ s2 = "".
Proof. destruct s1; simpl; [auto | discriminate]. Qed.

(** [String.prefix] decides "is an initial segment of". *)
Lemma prefix_spec (p s : string) :
  String.prefix p s = true <-> exists rest, s = p ++ rest.
Proof.
  revert s; induction p as [|c p IH]; intros s; simpl.
  - split; [intros _; exists s; reflexivity | destruct s; reflexivity].
  - destruct s as [|d s]; simpl.
    + split; [discriminate | intros [rest H]; discriminate].
    + destruct (ascii_dec c d) as [->|Hne].
      * rewrite IH. split; intros [rest H]; exists rest; congruence.
      * split; [discriminate | intros [rest H]; congruence].
Qed.

(** [contains] decides "occurs in": some characters, the needle, some more. *)
Lemma contains_spec (needle hay : string) :
  contains needle hay = true <->
  exists before after, hay = before ++ needle ++ after.
Proof.
  induction hay as [|c hay IH]; cbn [contains].
  - rewrite orb_false_r, prefix_spec. split.
    + intros [rest H]. exists "", rest. exact H.
    + intros [before [after H]]. symmetry in H.
      apply append_eq_nil in H as [-> H]. exists after. simpl. congruence.
  - rewrite orb_true_iff, prefix_spec, IH. split.
    + intros [[rest H] | [before [after H]]].
      * exists "", rest. exact H.
      * exists (String c before), after. simpl. congruence.
    + intros [[|d before] [after H]]; simpl in H.
      * left. exists after. exact H.
      * right. exists before, after. congruence.
Qed.

Lemma split_not_nil (sep : ascii) (s : string) : split sep s <> [].
Proof.
  destruct s as [|c s]; simpl; [discriminate|].
  destruct (Ascii.eqb c sep); [discriminate|].
  destruct (split sep s); discriminate.
Qed.

(** [split] undoes [join]: gluing the pieces back with the separator gives
    the string it was applied to. *)
Lemma split_join (sep : ascii) (s : string) :
  String.concat (String sep "") (split sep s) = s.
Proof.
  induction s as [|c s IH]; simpl; [reflexivity|].
  destruct (Ascii.eqb_spec c sep) as [->|Hne].
  - pose proof (split_not_nil sep s) as Hnn.
    destruct (split sep s) as [|p ps] eqn:E; [contradiction|].
    simpl in *. congruence.
  - destruct (split sep s) as [|p ps] eqn:E.
    + exfalso. eapply split_not_nil; eassumption.
    + destruct ps as [|q qs]; simpl in *; congruence.
Qed.

(** No piece of [split] holds the separator. *)
Lemma split_pieces (sep : ascii) (s piece : string) :
  In piece (split sep s) -> contains (String sep "") piece = false.
Proof.
  revert piece; induction s as [|c s IH]; intros piece; simpl.
  - intros [<-|[]]. reflexivity.
  - destruct (Ascii.eqb_spec c sep) as [->|Hne].
    + intros [<-|H]; [reflexivity | auto].
    + destruct (split sep s) as [|p ps] eqn:E.
      * intros [<-|[]]. simpl.
        destruct (ascii_dec sep c); [congruence | reflexivity].
      * intros [<-|H]; [|apply IH; right; exact H].
        simpl. destruct (ascii_dec sep c) as [->|_]; [congruence|].
        simpl. specialize (IH p (or_introl eq_refl)).
        destruct p; simpl in *; exact IH.
Qed.

Lemma str_in_spec (x : string) (names : list string) :
  str_in x names = true <-> In x names.
Proof.
  unfold str_in. rewrite existsb_exists. split.
  - intros [y [Hin Heq]]. apply String.eqb_eq in Heq. congruence.
  - intros Hin. exists x. split; [exact Hin | apply String.eqb_refl].
Qed.

(** [enumerate(l, 1)] pairs the element at position [k] (from 0) with [k + 1]. *)
Lemma enumerate_imap {A : Type} (l : list A) (start : Z) :
  enumerate l start = imap (fun k x => (start + Z.of_nat k, x)%Z) l.
Proof.
  revert start; induction l as [|x l IH]; intros start; simpl; [reflexivity|].
  rewrite Z.add_0_r. f_equal. rewrite IH. apply imap_ext.
  intros i y _. simpl. f_equal. lia.
Qed.

(** ** The formatter *)

(** The block of a card without comments, with and without numbering. *)
Lemma format_card_no_comments (X Y : string) (count : Z) (prefix : string) :
  format_card {| cd_name := X; cd_desc := Y; cd_comments := "" |} count false prefix
    = prefix ++ " " ++ str_of_int count ++ ". " ++ X ++ nl ++ Y ++ nl
  /\ format_card {| cd_name := X; cd_desc := Y; cd_comments := "" |} count true prefix
    = X ++ nl ++ Y ++ nl.
Proof. split; reflexivity. Qed.

(** Comments, when there are some, come after the block the card has
    without them. *)
Lemma format_card_comments_suffix (card : CardData) (count : Z)
    (no_numbering : bool) (prefix : string) :
  cd_comments card <> "" ->
  format_card card count no_numbering prefix =
  format_card {| cd_name := cd_name card; cd_desc := cd_desc card; cd_comments := "" |}
              count no_numbering prefix
  ++ " " ++ nl ++ cd_comments card ++ nl ++ nl.
Proof.
  intros Hne. unfold format_card. cbn [cd_name cd_desc cd_comments].
  destruct (cd_comments card) eqn:E; [congruence | reflexivity].
Qed.

(** A numbered block is the unnumbered one behind prefix, space, ordinal,
    full stop and space. *)
Lemma format_card_numbered (card : CardData) (count : Z) (prefix : string) :
  format_card card count false prefix =
  prefix ++ " " ++ str_of_int count ++ ". " ++ format_card card count true prefix.
Proof.
  unfold format_card. cbn [negb].
  destruct (cd_comments card); [reflexivity|].
  rewrite !append_assoc. reflexivity.
Qed.

(** C5: with name X, description Y and no comments, ordinal 1, numbering on
    and prefix "Card", [format_card] gives "Card 1. X\nY\n"; with numbering
    off it gives "X\nY\n"; non-empty comments add the suffix
    " \n<comments>\n\n" to the block. *)
Theorem format_card_examples (X Y : string) :
  format_card {| cd_name := X; cd_desc := Y; cd_comments := "" |} 1 false "Card"
    = "Card 1. " ++ X ++ nl ++ Y ++ nl
  /\ format_card {| cd_name := X; cd_desc := Y; cd_comments := "" |} 1 true "Card"
    = X ++ nl ++ Y ++ nl
  /\ forall (comments : string) (count : Z) (no_numbering : bool) (prefix : string),
      comments <> "" ->
      format_card {| cd_name := X; cd_desc := Y; cd_comments := comments |}
                  count no_numbering prefix
      = format_card {| cd_name := X; cd_desc := Y; cd_comments := "" |}
                    count no_numbering prefix
        ++ " " ++ nl ++ comments ++ nl ++ nl.
Proof.
  split; [reflexivity|]. split; [reflexivity|].
  intros comments count no_numbering prefix Hne.
  apply (format_card_comments_suffix
           {| cd_name := X; cd_desc := Y; cd_comments := comments |}).
  exact Hne.
Qed.

Lemma format_card_examples_witness :
  format_card {| cd_name := "X"; cd_desc := "Y"; cd_comments := "" |} 1 false "Card"
    = "Card 1. X" ++ nl ++ "Y" ++ nl
  /\ format_card {| cd_name := "X"; cd_desc := "Y"; cd_comments := "" |} 1 true "Card"
    = "X" ++ nl ++ "Y" ++ nl
  /\ format_card {| cd_name := "X"; cd_desc := "Y"; cd_comments := "Ann: ok" |} 1 false "Card"
    = "Card 1. X" ++ nl ++ "Y" ++ nl ++ " " ++ nl ++ "Ann: ok" ++ nl ++ nl.
Proof.
  destruct (format_card_examples "X" "Y") as [H1 [H2 H3]].
  split; [exact H1|]. split; [exact H2|].
  rewrite (H3 "Ann: ok" 1%Z false "Card"); [reflexivity | discriminate].
Defined.

(** C10: with numbering on and the empty prefix, the block starts with a
    space, then the ordinal, a full stop and a space: the separator after
    the prefix is written whether or not there is a prefix. *)
Theorem format_card_empty_prefix (card : CardData) (count : Z) :
  format_card card count false ""
    = " " ++ str_of_int count ++ ". " ++ format_card card count true ""
  /\ String.get 0 (format_card card count false "") = Some " "%char
  /\ format_card card 1 false ""
    = " 1. " ++ cd_name card ++ nl ++ cd_desc card ++ nl
      ++ match cd_comments card with
         | EmptyString => ""
         | String _ _ => " " ++ nl ++ cd_comments card ++ nl ++ nl
         end.
Proof.
  split; [apply format_card_numbered|]. split.
  - rewrite format_card_numbered. reflexivity.
  - unfold format_card. cbn [negb].
    destruct (cd_comments card).
    + rewrite append_nil_r. reflexivity.
    + rewrite !append_assoc. reflexivity.
Qed.

(** ** The record fetcher *)






(** ** Board resolution *)

Section Filtering.

Context {A : Type} (P : A -> Prop) (p : A -> bool).
Hypothesis p_spec : forall x, p x = true <-> P x.

Lemma filter_none (l : list A) : none P l -> List.filter p l = [].
Proof.
  unfold none. induction 1 as [|y l Hy _ IH]; simpl; [reflexivity|].
  destruct (p y) eqn:E; [|exact IH].
  apply p_spec in E. contradiction.
Qed.

Lemma filter_only (l : list A) (x : A) : only P l x -> List.filter p l = [x].
Proof.
  intros [l1 [l2 [-> [Hx [H1 H2]]]]].
  rewrite List.filter_app. simpl.
  rewrite (filter_none l1 H1), (filter_none l2 H2).
  apply p_spec in Hx. rewrite Hx. reflexivity.
Qed.

Lemma filter_several (l : list A) :
  several P l -> exists x1 x2 rest, List.filter p l = x1 :: x2 :: rest.
Proof.
  intros [l1 [x1 [l2 [x2 [l3 [-> [Hx1 Hx2]]]]]]].
  apply p_spec in Hx1, Hx2.
  induction l1 as [|y l1 IH]; simpl.
  - rewrite Hx1, List.filter_app. simpl. rewrite Hx2.
    destruct (List.filter p l2) as [|z zs]; simpl; eauto.
  - destruct (p y); [|exact IH].
    destruct IH as [a [b [rest ->]]]. eauto.
Qed.

End Filtering.

Section FindBoard.

Variable lower : string -> string.

Lemma matches_exactly_spec (query : string) (board : Board) :
  matches_exactly lower query board = true <-> exact_match lower query board.
Proof. apply String.eqb_eq. Qed.

Lemma matches_inexactly_spec (query : string) (board : Board) :
  matches_inexactly lower query board = true <-> substring_match lower query board.
Proof. apply contains_spec. Qed.

(** C1: when exactly one board's name equals the query case-insensitively,
    [find_board] returns that board, whatever the other names contain; when
    none does and exactly one board's name contains the query
    case-insensitively, [find_board] returns that board. *)
Theorem find_board_unique_match (client : TrelloClient) (boards : list Board)
    (query : string) (board : Board) (w : World) :
  Client_list_boards client = Some boards ->
  only (exact_match lower query) boards board
  \/ (none (exact_match lower query) boards
      /\ only (substring_match lower query) boards board) ->
  fst (find_board lower client query w) = Returned board.
Proof.
  intros Hclient H. unfold find_board, bind. rewrite Hclient.
  cbn [ret].
  destruct H as [Hexact | [Hnone Hsub]].
  - rewrite (filter_only _ _ (matches_exactly_spec query) _ _ Hexact).
    reflexivity.
  - rewrite (filter_none _ _ (matches_exactly_spec query) _ Hnone).
    cbn [logger_info logger].
    rewrite (filter_only _ _ (matches_inexactly_spec query) _ _ Hsub).
    reflexivity.
Qed.

(** C2, amended: two exact matches or more, or no exact match and two
    substring matches or more, make [find_board] raise [NoBoardException]
    after logging the error "Found more than one board with this name"; no
    match at either tier makes it raise the same [NoBoardException] after
    logging the error "Didn’t find neither an exact match nor a similar
    name". The two cases differ by the logged record only. *)
Theorem find_board_no_board (client : TrelloClient) (boards : list Board)
    (query : string) (w : World) :
  Client_list_boards client = Some boards ->
  (several (exact_match lower query) boards
   \/ (none (exact_match lower query) boards
       /\ several (substring_match lower query) boards) ->
   fst (find_board lower client query w) = Raised (Export NoBoardException)
   /\ last (log (snd (find_board lower client query w)))
      = Some (ERROR, Text "Found more than one board with this name"))
  /\ (none (exact_match lower query) boards
      /\ none (substring_match lower query) boards ->
      fst (find_board lower client query w) = Raised (Export NoBoardException)
      /\ last (log (snd (find_board lower client query w)))
         = Some (ERROR,
                 Text "Didn’t find neither an exact match nor a similar name")).
Proof.
  intros Hclient. unfold find_board, bind. rewrite Hclient. cbn [ret].
  split.
  - intros [Hexact | [Hnone Hsub]].
    + destruct (filter_several _ _ (matches_exactly_spec query) _ Hexact)
        as [x1 [x2 [rest ->]]].
      cbn [logger_error logger raise fst snd log].
      split; [reflexivity | apply last_snoc].
    + rewrite (filter_none _ _ (matches_exactly_spec query) _ Hnone).
      destruct (filter_several _ _ (matches_inexactly_spec query) _ Hsub)
        as [x1 [x2 [rest ->]]].
      cbn [logger_info logger_error logger raise fst snd log].
      split; [reflexivity | apply last_snoc].
  - intros [Hnone Hnone'].
    rewrite (filter_none _ _ (matches_exactly_spec query) _ Hnone).
    cbn [logger_info logger].
    rewrite (filter_none _ _ (matches_inexactly_spec query) _ Hnone').
    cbn [logger_error logger raise fst snd log].
    split; [reflexivity | apply last_snoc].
Qed.

End FindBoard.

Ltac refute_exact :=
  let H := fresh in intros H; vm_compute in H; discriminate H.

Ltac refute_substring :=
  let H := fresh in
  intros H; apply matches_inexactly_spec in H; vm_compute in H; discriminate H.

Lemma find_board_unique_match_witness :
  fst (find_board ascii_lower
         {| Client_list_boards := Some [board_workshop; board_work; board_home] |}
         "WORK" empty_world) = Returned board_work
  /\ fst (find_board ascii_lower
            {| Client_list_boards := Some [board_home; board_workshop] |}
            "work" empty_world) = Returned board_workshop.
Proof.
  split.
  - apply (find_board_unique_match ascii_lower _
             [board_workshop; board_work; board_home]); [reflexivity|].
    left. exists [board_workshop], [board_home].
    split; [reflexivity|]. split; [reflexivity|].
    split; repeat constructor; refute_exact.
  - apply (find_board_unique_match ascii_lower _ [board_home; board_workshop]);
      [reflexivity|].
    right. split.
    + repeat constructor; refute_exact.
    + exists [board_home], []. split; [reflexivity|].
      split; [apply matches_inexactly_spec; reflexivity|].
      split; repeat constructor; refute_substring.
Defined.

(** C2, as stated, fails: with two boards named like the query, and with no
    board at all, [find_board] raises the same [NoBoardException], so no two
    distinct error kinds tell the two calls apart. *)
Lemma find_board_kinds_counterexample :
  let ambiguous_call :=
    fst (find_board ascii_lower
           {| Client_list_boards :=
                Some [board_work; {| Board_name := "WORK"; Board_list_lists := [] |}] |}
           "work" empty_world) in
  let not_found_call :=
    fst (find_board ascii_lower
           {| Client_list_boards := Some [board_home] |} "work" empty_world) in
  ambiguous_call = Raised (Export NoBoardException)
  /\ not_found_call = Raised (Export NoBoardException)
  /\ ~ distinct_kinds ambiguous_call not_found_call.
Proof.
  split; [reflexivity|]. split; [reflexivity|].
  intros [k1 [k2 [Hne [H1 H2]]]].
  vm_compute in H1, H2. congruence.
Qed.

Lemma find_board_no_board_witness :
  (fst (find_board ascii_lower
          {| Client_list_boards := Some [board_workshop; board_home; board_work] |}
          "Wor" empty_world) = Raised (Export NoBoardException)
   /\ last (log (snd (find_board ascii_lower
          {| Client_list_boards := Some [board_workshop; board_home; board_work] |}
          "Wor" empty_world)))
      = Some (ERROR, Text "Found more than one board with this name"))
  /\ (fst (find_board ascii_lower
             {| Client_list_boards := Some [board_home] |}
             "work" empty_world) = Raised (Export NoBoardException)
      /\ last (log (snd (find_board ascii_lower
             {| Client_list_boards := Some [board_home] |}
             "work" empty_world)))
         = Some (ERROR,
                 Text "Didn’t find neither an exact match nor a similar name")).
Proof.
  split.
  - apply (find_board_no_board ascii_lower _
             [board_workshop; board_home; board_work]); [reflexivity|].
    right. split.
    + repeat constructor; refute_exact.
    + exists [], board_workshop, [board_home], board_work, [].
      split; [reflexivity|].
      split; apply matches_inexactly_spec; reflexivity.
  - apply (find_board_no_board ascii_lower _ [board_home]); [reflexivity|].
    split; repeat constructor; [refute_exact | refute_substring].
Defined.

(** ** List resolution *)

(** The comprehension of [find_lists] keeps the lists whose name is one of
    the requested names, in the board's order. *)
Lemma filter_str_in (names : list string) (lists_ : list TrelloList) :
  List.filter (fun list_ => str_in (List_name list_) names) lists_
  = filter (fun list_ => List_name list_ ∈ names) lists_.
Proof.
  induction lists_ as [|l lists_ IH]; simpl; [reflexivity|].
  rewrite filter_cons, <- IH.
  destruct (str_in (List_name l) names) eqn:E; case_decide as Hin.
  - reflexivity.
  - apply str_in_spec in E. apply list_elem_of_In in E. contradiction.
  - apply list_elem_of_In, str_in_spec in Hin. congruence.
  - reflexivity.
Qed.

Lemma truthy_Some (s : string) : truthy (Some s) = true <-> s <> "".
Proof. destruct s; simpl; split; congruence. Qed.

Lemma length_eqb_0 {A : Type} (l : list A) :
  (length l =? 0)%nat = true <-> l = [].
Proof. destruct l; simpl; split; congruence. Qed.

(** What [find_lists] does, by the lists it selects. *)
Lemma find_lists_run (board : Board) (lists_names : option string) (w : World) :
  let names :=
    match lists_names with
    | Some s => split ","%char s
    | None => []
    end in
  let selected :=
    match lists_names with
    | None | Some EmptyString => Board_list_lists board
    | Some s =>
        filter (fun list_ => List_name list_ ∈ split ","%char s)
               (Board_list_lists board)
    end in
  find_lists board lists_names w =
  if (length selected =? 0)%nat
  then (Raised (Export NoListsException),
        logged w [(ERROR, Text "No lists with specified names found")])
  else (Returned selected,
        logged w
          ((INFO, Text ("Exporting lists "
                        ++ String.concat ", " (map List_name selected)))
           :: if truthy lists_names
                 && negb (length selected =? length names)%nat
              then [(WARNING,
                     Text ("Found only " ++ str_of_int (Z.of_nat (length selected))
                           ++ " lists out of specified "
                           ++ str_of_int (Z.of_nat (length names))))]
              else [])).
Proof.
  intros names selected. unfold find_lists, names, selected, logged.
  destruct lists_names as [[|c s]|]; cbn [truthy];
    rewrite ?filter_str_in;
    match goal with
    | |- context [(length ?l =? 0)%nat] => destruct (length l =? 0)%nat
    end; try reflexivity;
    unfold bind, logger_info, logger; cbn [andb];
    match goal with
    | |- context [if ?c then logger_warning _ else _] => destruct c
    end; cbn; rewrite <- ?app_assoc; reflexivity.
Qed.

(** C6, as stated, fails: on a board without lists, [find_lists] with an
    absent filter does not return the (empty) sequence of the board's lists,
    it raises [NoListsException]; so it does with a filter naming no list of
    the board. *)
Lemma find_lists_counterexample :
  let empty_board := {| Board_name := "New"; Board_list_lists := [] |} in
  let board :=
    {| Board_name := "Work";
       Board_list_lists := [ {| List_name := "Todo"; List_list_cards := [] |} ] |} in
  fst (find_lists empty_board None empty_world) = Raised (Export NoListsException)
  /\ fst (find_lists empty_board None empty_world)
     <> Returned (Board_list_lists empty_board)
  /\ fst (find_lists board (Some "Done") empty_world)
     = Raised (Export NoListsException)
  /\ fst (find_lists board (Some "Done") empty_world)
     <> Returned (filter (fun list_ => List_name list_ ∈ split ","%char "Done")
                         (Board_list_lists board)).
Proof.
  repeat split; try reflexivity; vm_compute; discriminate.
Qed.

(** C6, amended: with an absent or empty filter, [find_lists] returns every
    list of the board in the board's order, provided the board has a list;
    with a non-empty filter, it returns the board's lists whose name is, by
    exact comparison, one of the pieces of the filter split on commas, in
    the board's order, provided there is one. When nothing is selected it
    logs the error "No lists with specified names found", and nothing else,
    and raises [NoListsException]. *)
Theorem find_lists_selection (board : Board) (lists_names : option string)
    (w : World) :
  let selected :=
    match lists_names with
    | None | Some EmptyString => Board_list_lists board
    | Some s =>
        filter (fun list_ => List_name list_ ∈ split ","%char s)
               (Board_list_lists board)
    end in
  (selected <> [] -> fst (find_lists board lists_names w) = Returned selected)
  /\ (selected = [] ->
      find_lists board lists_names w
      = (Raised (Export NoListsException),
         {| log := (log w ++ [(ERROR, Text "No lists with specified names found")])%list;
            files := files w;
            opened := opened w |})).
Proof.
  intros selected. rewrite find_lists_run. fold selected.
  split; intros H.
  - destruct (length selected =? 0)%nat eqn:E; [|reflexivity].
    apply length_eqb_0 in E. contradiction.
  - apply length_eqb_0 in H. rewrite H. reflexivity.
Qed.

Lemma find_lists_selection_witness :
  let todo := {| List_name := "Todo"; List_list_cards := [] |} in
  let doing := {| List_name := "Doing"; List_list_cards := [] |} in
  let done := {| List_name := "Done"; List_list_cards := [] |} in
  let board := {| Board_name := "Work"; Board_list_lists := [todo; doing; done] |} in
  fst (find_lists board None empty_world) = Returned [todo; doing; done]
  /\ fst (find_lists board (Some "") empty_world) = Returned [todo; doing; done]
  /\ fst (find_lists board (Some "Done,Todo") empty_world) = Returned [todo; done]
  /\ find_lists board (Some "todo, Done") empty_world
     = (Raised (Export NoListsException),
        {| log := [(ERROR, Text "No lists with specified names found")];
           files := ∅;
           opened := [] |})
  /\ find_lists {| Board_name := "New"; Board_list_lists := [] |} None empty_world
     = (Raised (Export NoListsException),
        {| log := [(ERROR, Text "No lists with specified names found")];
           files := ∅;
           opened := [] |}).
Proof.
  intros todo doing done board.
  split; [apply (find_lists_selection board None empty_world); discriminate|].
  split; [apply (find_lists_selection board (Some "") empty_world); discriminate|].
  split; [|split].
  - apply (find_lists_selection board (Some "Done,Todo") empty_world).
    vm_compute. discriminate.
  - apply (find_lists_selection board (Some "todo, Done") empty_world).
    vm_compute. reflexivity.
  - apply (find_lists_selection {| Board_name := "New"; Board_list_lists := [] |}
             None empty_world).
    reflexivity.
Defined.

(** C8: with a filter of three names of which two select lists of the board,
    [find_lists] returns these two lists, after logging the lists exported
    and the warning "Found only 2 lists out of specified 3"; it logs no
    error and raises nothing. *)
Theorem find_lists_partial_match (board : Board) (lists_names : string)
    (w : World) :
  let selected :=
    filter (fun list_ => List_name list_ ∈ split ","%char lists_names)
           (Board_list_lists board) in
  length (split ","%char lists_names) = 3%nat ->
  length selected = 2%nat ->
  find_lists board (Some lists_names) w
  = (Returned selected,
     {| log := log w ++
               [ (INFO, Text ("Exporting lists "
                              ++ String.concat ", " (map List_name selected)));
                 (WARNING, Text "Found only 2 lists out of specified 3") ];
        files := files w;
        opened := opened w |}).
Proof.
  intros selected Hnames Hfound.
  assert (truthy (Some lists_names) = true) as Htruthy.
  { apply truthy_Some. intros ->. discriminate Hnames. }
  unfold find_lists. rewrite Htruthy, filter_str_in.
  fold selected. rewrite Hnames, Hfound.
  unfold bind, logger_info, logger_warning, logger, ret. cbn.
  rewrite <- app_assoc. reflexivity.
Qed.

Lemma find_lists_partial_match_witness :
  let A := {| List_name := "A"; List_list_cards := [] |} in
  let C := {| List_name := "C"; List_list_cards := [] |} in
  let D := {| List_name := "D"; List_list_cards := [] |} in
  let board := {| Board_name := "Work"; Board_list_lists := [A; D; C] |} in
  find_lists board (Some "A,B,C") empty_world
  = (Returned [A; C],
     {| log := [ (INFO, Text "Exporting lists A, C");
                 (WARNING, Text "Found only 2 lists out of specified 3") ];
        files := ∅;
        opened := [] |}).
Proof.
  intros A C D board.
  apply (find_lists_partial_match board "A,B,C" empty_world); reflexivity.
Defined.

(** ** The file writer *)

Lemma concat_empty_cons (line : string) (lines : list string) :
  String.concat "" (line :: lines) = line ++ String.concat "" lines.
Proof.
  destruct lines; simpl; [rewrite append_nil_r|]; reflexivity.
Qed.

(** [writelines] appends the lines, glued, to a file that is open. *)
Lemma writelines_run (filename : string) (lines : list string) (w : World)
    (old : string) :
  files w !! filename = Some old ->
  writelines filename lines w
  = (Returned tt,
     {| log := log w;
        files := <[filename := old ++ String.concat "" lines]> (files w);
        opened := opened w |}).
Proof.
  revert w old; induction lines as [|line lines IH]; intros w old Hold.
  - cbn [writelines ret String.concat]. rewrite append_nil_r.
    rewrite insert_id by exact Hold. destruct w; reflexivity.
  - cbn [writelines]. unfold bind, write. rewrite Hold. cbn [default].
    erewrite IH by (cbn [files]; apply lookup_insert_eq).
    cbn [log files opened].
    rewrite insert_insert_eq, concat_empty_cons, append_assoc. reflexivity.
Qed.

(** The generator [cards_formatted] yields the blocks of the list. *)
Lemma cards_formatted_blocks (prefix : string) (no_numbering : bool)
    (list_data : ListData) :
  String.concat ""
    (map (fun '(index, card) => format_card card index no_numbering prefix)
         (enumerate (ld_cards list_data) 1))
  = blocks prefix no_numbering list_data.
Proof.
  unfold blocks. rewrite enumerate_imap.
  change (map ?f ?l) with (f <$> l). rewrite fmap_imap.
  f_equal. apply imap_ext. intros k card _. cbn. f_equal. lia.
Qed.

(** One turn of the loop of [save_to_file]: the element's log records are
    emitted, its file is opened once in the mode of the run, its blocks are
    written with ordinals from 1, and the filename joins the set. *)
Lemma save_list_run (merge : bool) (prefix : string) (no_numbering : bool)
    (board_name : string) (files_ : gset string) (item : Logged ListData)
    (w : World) :
  save_list merge prefix no_numbering board_name files_ item w
  = (Returned (files_ ∪ {[ fst (target merge board_name (snd item)) ]}),
     {| log := log w ++ fst item;
        files := written merge prefix no_numbering board_name (files w) (snd item);
        opened := opened w ++ [target merge board_name (snd item)] |}).
Proof.
  unfold save_list, bind, emit, written, target, blocks.
  destruct merge; cbn [fst snd open_file log files opened].
  - erewrite writelines_run by (cbn [files]; apply lookup_insert_eq).
    cbn [ret log files opened]. rewrite insert_insert_eq.
    rewrite cards_formatted_blocks. reflexivity.
  - erewrite writelines_run by (cbn [files]; apply lookup_insert_eq).
    cbn [ret log files opened]. rewrite insert_insert_eq.
    rewrite cards_formatted_blocks. reflexivity.
Qed.

(** The whole loop. *)
Lemma for_each_save_list (merge : bool) (prefix : string) (no_numbering : bool)
    (board_name : string) (data : list (Logged ListData))
    (files_ : gset string) (w : World) :
  for_each data (save_list merge prefix no_numbering board_name) files_ w
  = (Returned (files_ ∪ list_to_set
                 (map (fun item => fst (target merge board_name (snd item))) data)),
     {| log := log w ++ concat (map fst data);
        files := fold_left (written merge prefix no_numbering board_name)
                           (map snd data) (files w);
        opened := opened w ++
                  map (fun item => target merge board_name (snd item)) data |}).
Proof.
  revert files_ w; induction data as [|item data IH]; intros files_ w.
  - cbn. rewrite !app_nil_r, union_empty_r_L. destruct w; reflexivity.
  - cbn [for_each]. unfold bind. rewrite save_list_run, IH.
    cbn [log files opened map concat fold_left list_to_set].
    rewrite <- !app_assoc, <- (assoc_L (∪)). reflexivity.
Qed.

Lemma save_to_file_run (data : list (Logged ListData)) (merge : bool)
    (prefix : string) (no_numbering : bool) (board_name : string) (w : World) :
  save_to_file data merge prefix no_numbering board_name w
  = (Returned PyNone,
     {| log := log w ++ [(INFO, Text "Saving to files")] ++ concat (map fst data)
               ++ [(INFO, SavedTo (list_to_set
                      (map (fun item => fst (target merge board_name (snd item)))
                           data)))];
        files := fold_left (written merge prefix no_numbering board_name)
                           (map snd data) (files w);
        opened := opened w ++
                  map (fun item => target merge board_name (snd item)) data |}).
Proof.
  unfold save_to_file, bind, logger_info, logger.
  rewrite for_each_save_list. cbn [log files opened ret].
  rewrite union_empty_l_L, <- !app_assoc. reflexivity.
Qed.

(** In merge mode every list goes to the one file of the board: once the
    file is there, the loop leaves the other files alone and appends the
    blocks of the lists, in order, to what the file holds. *)
Lemma fold_left_written_merge (prefix : string) (no_numbering : bool)
    (board_name : string) (lists_data : list ListData)
    (fsys : gmap string string) (old : string) :
  fsys !! (board_name ++ ".txt") = Some old ->
  fold_left (written true prefix no_numbering board_name) lists_data fsys
  = <[board_name ++ ".txt" :=
        old ++ String.concat "" (map (blocks prefix no_numbering) lists_data)]> fsys.
Proof.
  revert fsys old; induction lists_data as [|ld lists_data IH]; intros fsys old Hold.
  - cbn [fold_left map String.concat]. rewrite append_nil_r.
    symmetry. apply insert_id. exact Hold.
  - cbn [fold_left map]. unfold written at 2. cbn [target fst].
    rewrite Hold. cbn [default].
    erewrite IH by apply lookup_insert_eq.
    rewrite insert_insert_eq, concat_empty_cons, append_assoc. reflexivity.
Qed.

Lemma fold_left_written_merge_other (prefix : string) (no_numbering : bool)
    (board_name : string) (lists_data : list ListData)
    (fsys : gmap string string) (other : string) :
  other <> board_name ++ ".txt" ->
  fold_left (written true prefix no_numbering board_name) lists_data fsys !! other
  = fsys !! other.
Proof.
  intros Hne. revert fsys; induction lists_data as [|ld lists_data IH]; intros fsys.
  - reflexivity.
  - cbn [fold_left]. rewrite IH. unfold written. cbn [target fst].
    apply lookup_insert_ne. congruence.
Qed.

(** C3, as stated, fails: [save_to_file] returns [None], not the set of the
    filenames it touched. *)
Lemma save_to_file_returns_counterexample :
  let data := [ ([], {| ld_name := "Todo"; ld_cards := [] |}) ] in
  let run := save_to_file data false "" false "Work" empty_world in
  opened (snd run) = [("Todo.txt", ModeW)]
  /\ fst run = Returned PyNone
  /\ fst run <> Returned (PySet {[ "Todo.txt" ]}).
Proof.
  split; [reflexivity|]. split; [reflexivity|].
  vm_compute. discriminate.
Qed.

(** C9: in merge mode every call of [open] is for "<board_name>.txt" in
    append mode, one call per list; no other file changes; and what the file
    held before the run is still there, followed by the blocks of the lists
    in order. *)
Theorem save_to_file_merge_appends (data : list (Logged ListData))
    (prefix : string) (no_numbering : bool) (board_name : string) (w : World) :
  let run := save_to_file data true prefix no_numbering board_name w in
  let filename := board_name ++ ".txt" in
  opened (snd run) = (opened w ++ replicate (length data) (filename, ModeA))%list
  /\ (forall other, other <> filename ->
      files (snd run) !! other = files w !! other)
  /\ (forall old, files w !! filename = Some old ->
      files (snd run) !! filename
      = Some (old ++ String.concat ""
                       (map (blocks prefix no_numbering) (map snd data)))).
Proof.
  intros run filename. unfold run. rewrite save_to_file_run.
  cbn [snd opened files]. split; [|split].
  - f_equal. induction data as [|item data IH]; cbn; [reflexivity|].
    f_equal. exact IH.
  - intros other Hne. apply fold_left_written_merge_other. exact Hne.
  - intros old Hold. erewrite fold_left_written_merge by exact Hold.
    apply lookup_insert_eq.
Qed.

Lemma save_to_file_merge_appends_witness :
  let card := {| cd_name := "X"; cd_desc := "Y"; cd_comments := "" |} in
  let data := [ ([], {| ld_name := "Todo"; ld_cards := [card] |}) ] in
  let w := {| log := []; files := {[ "Work.txt" := "kept" ]}; opened := [] |} in
  files (snd (save_to_file data true "" true "Work" w)) !! "Work.txt"
  = Some ("kept" ++ "X" ++ nl ++ "Y" ++ nl).
Proof.
  intros card data w.
  apply (save_to_file_merge_appends data "" true "Work" w).
  reflexivity.
Defined.

(** C7: in merge mode, two lists of two cards and one card go to one file,
    "<board_name>.txt", which receives three blocks with ordinals 1, 2 and
    1; no other file changes and the set logged is that one filename. In
    either mode, the card at position [k] (from 0) of a list is written with
    ordinal [k + 1]. *)
Theorem save_to_file_ordinals_restart (c1 c2 c3 : CardData)
    (name1 name2 : string) (log1 log2 : list LogRecord)
    (prefix : string) (no_numbering : bool) (board_name : string) (w : World) :
  let data := [ (log1, {| ld_name := name1; ld_cards := [c1; c2] |});
                (log2, {| ld_name := name2; ld_cards := [c3] |}) ] in
  let run := save_to_file data true prefix no_numbering board_name w in
  let filename := board_name ++ ".txt" in
  files (snd run)
  = <[filename := default "" (files w !! filename)
                  ++ format_card c1 1 no_numbering prefix
                  ++ format_card c2 2 no_numbering prefix
                  ++ format_card c3 1 no_numbering prefix]> (files w)
  /\ last (log (snd run)) = Some (INFO, SavedTo {[ filename ]})
  /\ forall (merge : bool) (files_ : gset string) (item : Logged ListData)
            (w' : World),
      files (snd (save_list merge prefix no_numbering board_name files_ item w'))
      = <[fst (target merge board_name (snd item)) :=
            (if merge
             then default "" (files w' !! fst (target merge board_name (snd item)))
             else "")
            ++ String.concat ""
                 (imap (fun k card =>
                          format_card card (Z.of_nat k + 1) no_numbering prefix)
                       (ld_cards (snd item)))]> (files w').
Proof.
  intros data run filename. unfold run, data. rewrite save_to_file_run.
  cbn [snd files log map fold_left]. split; [|split].
  - unfold written, target, blocks. cbn [fst ld_cards imap String.concat].
    fold filename. rewrite lookup_insert_eq, insert_insert_eq.
    unfold default, from_option, id, compose.
    change (Z.of_nat 0 + 1)%Z with 1%Z. change (Z.of_nat 1 + 1)%Z with 2%Z.
    rewrite !append_assoc. reflexivity.
  - rewrite !app_assoc, last_snoc. cbn [target fst list_to_set].
    do 3 f_equal. fold filename.
    rewrite union_empty_r_L, union_idemp_L. reflexivity.
  - intros merge files_ item w'. rewrite save_list_run. reflexivity.
Qed.

(** ** The orchestrator *)

Lemma bind_returned {A B : Type} (m : M A) (k : A -> M B) (w w' : World) (b : B) :
  bind m k w = (Returned b, w') ->
  exists a w1, m w = (Returned a, w1) /\ k a w1 = (Returned b, w').
Proof.
  unfold bind. destruct (m w) as [[a|e] w1]; [eauto | discriminate].
Qed.

(** Resolving the client, the board and the lists opens no file and
    changes none. *)
Lemma setup_client_frame (env : Env) (w w' : World) (r : Outcome TrelloClient) :
  setup_client env w = (r, w') -> opened w' = opened w /\ files w' = files w.
Proof.
  unfold setup_client, trello_credentials, bind.
  destruct (config_trello env); cbn; intros [= _ <-]; split; reflexivity.
Qed.

Lemma find_board_frame (lower : string -> string) (client : TrelloClient)
    (query : string) (w w' : World) (r : Outcome Board) :
  find_board lower client query w = (r, w') ->
  opened w' = opened w /\ files w' = files w.
Proof.
  unfold find_board, bind.
  destruct (Client_list_boards client) as [boards|]; cbn;
    [|intros [= _ <-]; split; reflexivity].
  destruct (List.filter (matches_exactly lower query) boards) as [|? [|? ?]]; cbn;
    try (intros [= _ <-]; split; reflexivity).
  destruct (List.filter (matches_inexactly lower query) boards) as [|? [|? ?]]; cbn;
    intros [= _ <-]; split; reflexivity.
Qed.

Lemma find_lists_frame (board : Board) (lists_names : option string)
    (w w' : World) (r : Outcome (list TrelloList)) :
  find_lists board lists_names w = (r, w') ->
  opened w' = opened w /\ files w' = files w.
Proof.
  unfold find_lists, bind.
  match goal with
  | |- context [(length ?l =? 0)%nat] => destruct (length l =? 0)%nat
  end; cbn; [intros [= _ <-]; split; reflexivity|].
  match goal with
  | |- context [if ?c then logger_warning _ else _] => destruct c
  end; cbn; intros [= _ <-]; split; reflexivity.
Qed.

(** When [options] cannot be subscripted, as the [argparse.Namespace] the
    script passes cannot, the suite of [main] never completes: it raises,
    at the latest when [options['no-numbering']] is evaluated, before any
    file is opened. *)
Lemma main_suite_not_subscriptable (lower : string -> string) (env : Env)
    (options : Options) (w : World) :
  opt_item_no_numbering options = None ->
  exists e w',
    main_suite lower env options w = (Raised e, w')
    /\ opened w' = opened w /\ files w' = files w.
Proof.
  intros Hnone. unfold main_suite, bind. rewrite Hnone.
  destruct (setup_client env w) as [[client|e1] w1] eqn:E1;
    apply setup_client_frame in E1 as [Ho1 Hf1]; [|eauto].
  destruct (find_board lower client (opt_board options) w1) as [[board|e2] w2] eqn:E2;
    apply find_board_frame in E2 as [Ho2 Hf2];
    [|exists e2, w2; split; [reflexivity | split; congruence]].
  destruct (find_lists board (opt_lists options) w2) as [[lists_|e3] w3] eqn:E3;
    apply find_lists_frame in E3 as [Ho3 Hf3].
  - exists TypeError, w3. split; [reflexivity | split; congruence].
  - exists e3, w3. split; [reflexivity | split; congruence].
Qed.

(** C3, amended: [save_to_file] returns [None]; the last record it logs, at
    level info, is "Saved to" with the set of the distinct filenames it
    opened. [main] adds no report of its own: when the suite of its [try]
    statement completes, that record of [save_to_file] is the last one
    logged, and it holds the filenames opened during the run. *)
Theorem save_to_file_reports (lower : string -> string)
    (data : list (Logged ListData)) (merge : bool) (prefix : string)
    (no_numbering : bool) (board_name : string)
    (env : Env) (options : Options) (w : World) :
  (exists touched : list (string * Mode),
     opened (snd (save_to_file data merge prefix no_numbering board_name w))
     = (opened w ++ touched)%list
     /\ fst (save_to_file data merge prefix no_numbering board_name w)
        = Returned PyNone
     /\ last (log (snd (save_to_file data merge prefix no_numbering board_name w)))
        = Some (INFO, SavedTo (list_to_set (map fst touched))))
  /\ (fst (main_suite lower env options w) = Returned tt ->
      exists touched : list (string * Mode),
        opened (snd (main lower env options w)) = (opened w ++ touched)%list
        /\ fst (main lower env options w) = Returned tt
        /\ last (log (snd (main lower env options w)))
           = Some (INFO, SavedTo (list_to_set (map fst touched)))).
Proof.
  assert (forall data merge prefix no_numbering board_name w,
    exists touched : list (string * Mode),
     opened (snd (save_to_file data merge prefix no_numbering board_name w))
     = (opened w ++ touched)%list
     /\ fst (save_to_file data merge prefix no_numbering board_name w)
        = Returned PyNone
     /\ last (log (snd (save_to_file data merge prefix no_numbering board_name w)))
        = Some (INFO, SavedTo (list_to_set (map fst touched)))) as Hsave.
  { clear. intros data merge prefix no_numbering board_name w.
    rewrite save_to_file_run. cbn [fst snd log opened].
    eexists. split; [reflexivity|]. split; [reflexivity|].
    rewrite !app_assoc, last_snoc, map_map. reflexivity. }
  split; [apply Hsave|].
  intros Hsuite. unfold main, try_except.
  destruct (main_suite lower env options w) as [[[]|e] w'] eqn:E;
    [clear Hsuite | discriminate Hsuite].
  unfold main_suite in E.
  apply bind_returned in E as [client [w1 [E1 E]]].
  apply bind_returned in E as [board [w2 [E2 E]]].
  apply bind_returned in E as [lists_ [w3 [E3 E]]].
  apply bind_returned in E as [nn [w4 [E4 E]]].
  apply bind_returned in E as [v [w5 [E5 E]]].
  injection E as <-.
  assert (w4 = w3) as ->.
  { destruct (opt_item_no_numbering options); [|discriminate E4].
    injection E4 as _ <-. reflexivity. }
  apply setup_client_frame in E1 as [E1 _].
  apply find_board_frame in E2 as [E2 _].
  apply find_lists_frame in E3 as [E3 _].
  destruct (Hsave (map (fun list_ => get_data list_ (opt_comments options)) lists_)
                  (opt_merge options) (opt_prefix options) nn
                  (Board_name board) w3) as [touched [Ho [_ Hl]]].
  rewrite E5 in Ho, Hl. cbn [fst snd] in *.
  exists touched. split; [congruence|]. split; [reflexivity | exact Hl].
Qed.

Lemma save_to_file_reports_witness :
  exists touched : list (string * Mode),
    opened (snd (main ascii_lower sample_env sample_options empty_world))
    = ([] ++ touched)%list
    /\ fst (main ascii_lower sample_env sample_options empty_world) = Returned tt
    /\ last (log (snd (main ascii_lower sample_env sample_options empty_world)))
       = Some (INFO, SavedTo (list_to_set (map fst touched))).
Proof.
  apply (proj2 (save_to_file_reports ascii_lower [] false "" false ""
                  sample_env sample_options empty_world)).
  vm_compute. reflexivity.
Defined.

(** * Further properties of the script *)

(** ** Board resolution, in full *)

Section FilteringBack.

Context {A : Type} (P : A -> Prop) (p : A -> bool).
Hypothesis p_spec : forall x, p x = true <-> P x.

Lemma filter_nil_none (l : list A) : List.filter p l = [] -> none P l.
Proof.
  unfold none. induction l as [|y l IH]; simpl; [constructor|].
  destruct (p y) eqn:E; [discriminate|]. intros H.
  constructor; [|exact (IH H)].
  intros HP. apply p_spec in HP. congruence.
Qed.

Lemma filter_singleton_only (l : list A) (x : A) :
  List.filter p l = [x] -> only P l x.
Proof.
  induction l as [|y l IH]; simpl; [discriminate|].
  destruct (p y) eqn:E.
  - intros [= -> Hrest]. exists [], l.
    split; [reflexivity|]. split; [apply p_spec; exact E|].
    split; [constructor | apply filter_nil_none; exact Hrest].
  - intros H. destruct (IH H) as [l1 [l2 [-> [Hx [H1 H2]]]]].
    exists (y :: l1), l2. split; [reflexivity|]. split; [exact Hx|].
    split; [|exact H2]. constructor; [|exact H1].
    intros HP. apply p_spec in HP. congruence.
Qed.

End FilteringBack.

Section FindBoardOutcomes.

Variable lower : string -> string.

(** What [find_board] does, by the two comprehensions. *)
Lemma find_board_run (client : TrelloClient) (boards : list Board)
    (query : string) (w : World) :
  Client_list_boards client = Some boards ->
  find_board lower client query w =
  match List.filter (matches_exactly lower query) boards with
  | [board] =>
      (Returned board,
       logged w [(INFO, Text "Found a board with exactly this name")])
  | _ :: _ :: _ =>
      (Raised (Export NoBoardException),
       logged w [(ERROR, Text "Found more than one board with this name")])
  | [] =>
      match List.filter (matches_inexactly lower query) boards with
      | [board] =>
          (Returned board,
           logged w [(INFO, Text "Didn’t find an exact match");
                     (INFO, Text ("Found a board with a matching name: "
                                  ++ Board_name board))])
      | _ :: _ :: _ =>
          (Raised (Export NoBoardException),
           logged w [(INFO, Text "Didn’t find an exact match");
                     (ERROR, Text "Found more than one board with this name")])
      | [] =>
          (Raised (Export NoBoardException),
           logged w [(INFO, Text "Didn’t find an exact match");
                     (ERROR, Text "Didn’t find neither an exact match nor a similar name")])
      end
  end.
Proof.
  intros Hclient. unfold find_board, bind, logged. rewrite Hclient. cbn [ret].
  destruct (List.filter (matches_exactly lower query) boards) as [|? [|? ?]];
    cbn; try reflexivity.
  destruct (List.filter (matches_inexactly lower query) boards) as [|? [|? ?]];
    cbn; rewrite <- app_assoc; reflexivity.
Qed.

(** X1: with the boards the service lists, [find_board] returns a board
    exactly when that board is the only exact match, or there is no exact
    match and it is the only substring match; in every other case it raises
    [NoBoardException]. *)
Theorem find_board_returns_iff (client : TrelloClient) (boards : list Board)
    (query : string) (w : World) :
  Client_list_boards client = Some boards ->
  (forall board,
     fst (find_board lower client query w) = Returned board <->
     only (exact_match lower query) boards board
     \/ (none (exact_match lower query) boards
         /\ only (substring_match lower query) boards board))
  /\ ((forall board, fst (find_board lower client query w) <> Returned board) ->
      fst (find_board lower client query w) = Raised (Export NoBoardException)).
Proof.
  intros Hclient. rewrite (find_board_run _ _ _ _ Hclient).
  pose proof (matches_exactly_spec lower query) as Hex.
  pose proof (matches_inexactly_spec lower query) as Hin.
  split.
  - intros board. split.
    + destruct (List.filter (matches_exactly lower query) boards)
        as [|x [|y r]] eqn:E.
      * destruct (List.filter (matches_inexactly lower query) boards)
          as [|x' [|y' r']] eqn:E'; cbn [fst]; try discriminate.
        intros [= <-]. right. split.
        -- apply (filter_nil_none _ _ Hex). exact E.
        -- apply (filter_singleton_only _ _ Hin). exact E'.
      * cbn [fst]. intros [= <-]. left.
        apply (filter_singleton_only _ _ Hex). exact E.
      * discriminate.
    + intros [Hexact | [Hnone Hsub]].
      * rewrite (filter_only _ _ Hex _ _ Hexact). reflexivity.
      * rewrite (filter_none _ _ Hex _ Hnone), (filter_only _ _ Hin _ _ Hsub).
        reflexivity.
  - intros Hnever.
    destruct (List.filter (matches_exactly lower query) boards) as [|x [|y r]];
      [|exfalso; eapply Hnever; reflexivity | reflexivity].
    destruct (List.filter (matches_inexactly lower query) boards) as [|x' [|y' r']];
      [reflexivity | exfalso; eapply Hnever; reflexivity | reflexivity].
Qed.

(** X2: a board that [find_board] returns is one of the boards listed, and
    its name holds the query case-insensitively. *)
Theorem find_board_returned_board (client : TrelloClient) (boards : list Board)
    (query : string) (board : Board) (w : World) :
  Client_list_boards client = Some boards ->
  fst (find_board lower client query w) = Returned board ->
  In board boards /\ substring_match lower query board.
Proof.
  intros Hclient. rewrite (find_board_run _ _ _ _ Hclient).
  destruct (List.filter (matches_exactly lower query) boards)
    as [|x [|y r]] eqn:E; [| |discriminate].
  - destruct (List.filter (matches_inexactly lower query) boards)
      as [|x' [|y' r']] eqn:E'; cbn [fst]; try discriminate.
    intros [= <-].
    assert (In x' (List.filter (matches_inexactly lower query) boards)) as Hx
      by (rewrite E'; left; reflexivity).
    apply filter_In in Hx as [Hx Hm]. split; [exact Hx|].
    apply matches_inexactly_spec. exact Hm.
  - cbn [fst]. intros [= <-].
    assert (In x (List.filter (matches_exactly lower query) boards)) as Hx
      by (rewrite E; left; reflexivity).
    apply filter_In in Hx as [Hx Hm]. split; [exact Hx|].
    apply matches_exactly_spec in Hm. unfold exact_match in Hm.
    exists "", "". rewrite Hm, append_nil_r. reflexivity.
Qed.

Lemma find_board_unauthorized (client : TrelloClient) (query : string)
    (w : World) :
  Client_list_boards client = None ->
  find_board lower client query w
  = (Raised (Export CredentialsException),
     logged w [(ERROR,
                Text "Invalid API key, secret, or token. Check your config.conf file")]).
Proof.
  intros Hclient. unfold find_board, bind. rewrite Hclient. reflexivity.
Qed.

(** X3: when the service rejects the credentials, [find_board] logs one
    error and raises [CredentialsException], whatever the query; it raises
    [CredentialsException] in no other case. *)
Theorem find_board_credentials (client : TrelloClient) (query : string)
    (w : World) :
  (Client_list_boards client = None ->
   find_board lower client query w
   = (Raised (Export CredentialsException),
      logged w [(ERROR,
                 Text "Invalid API key, secret, or token. Check your config.conf file")]))
  /\ (fst (find_board lower client query w) = Raised (Export CredentialsException) ->
      Client_list_boards client = None).
Proof.
  split.
  - apply find_board_unauthorized.
  - destruct (Client_list_boards client) as [boards|] eqn:Hclient;
      [|reflexivity].
    rewrite (find_board_run _ _ _ _ Hclient).
    destruct (List.filter (matches_exactly lower query) boards) as [|x [|y r]];
      try discriminate.
    destruct (List.filter (matches_inexactly lower query) boards) as [|x' [|y' r']];
      discriminate.
Qed.

(** X4: the empty query, when lowering keeps it empty, resolves a service
    with a single board to that board, whatever its name. *)
Theorem find_board_empty_query (client : TrelloClient) (board : Board)
    (w : World) :
  lower "" = "" ->
  Client_list_boards client = Some [board] ->
  fst (find_board lower client "" w) = Returned board.
Proof.
  intros Hlower Hclient. rewrite (find_board_run _ _ _ _ Hclient).
  cbn [List.filter].
  assert (matches_inexactly lower "" board = true) as Hin.
  { apply matches_inexactly_spec. exists "", (lower (Board_name board)).
    rewrite Hlower. reflexivity. }
  rewrite Hin. destruct (matches_exactly lower "" board); reflexivity.
Qed.

End FindBoardOutcomes.

Lemma find_board_returns_iff_witness :
  fst (find_board ascii_lower
         {| Client_list_boards := Some [board_home; board_workshop] |}
         "work" empty_world) = Returned board_workshop
  <-> only (exact_match ascii_lower "work") [board_home; board_workshop] board_workshop
      \/ (none (exact_match ascii_lower "work") [board_home; board_workshop]
          /\ only (substring_match ascii_lower "work")
                  [board_home; board_workshop] board_workshop).
Proof.
  apply (find_board_returns_iff ascii_lower
           {| Client_list_boards := Some [board_home; board_workshop] |}
           [board_home; board_workshop] "work" empty_world).
  reflexivity.
Defined.

Lemma find_board_returned_board_witness :
  In board_workshop [board_home; board_workshop]
  /\ substring_match ascii_lower "work" board_workshop.
Proof.
  apply (find_board_returned_board ascii_lower
           {| Client_list_boards := Some [board_home; board_workshop] |}
           [board_home; board_workshop] "work" board_workshop empty_world);
    reflexivity.
Defined.

Lemma find_board_credentials_witness :
  find_board ascii_lower {| Client_list_boards := None |} "work" empty_world
  = (Raised (Export CredentialsException),
     logged empty_world
       [(ERROR, Text "Invalid API key, secret, or token. Check your config.conf file")]).
Proof.
  apply (find_board_credentials ascii_lower {| Client_list_boards := None |}
           "work" empty_world).
  reflexivity.
Defined.

Lemma find_board_empty_query_witness :
  fst (find_board ascii_lower {| Client_list_boards := Some [board_home] |}
         "" empty_world) = Returned board_home.
Proof.
  apply (find_board_empty_query ascii_lower
           {| Client_list_boards := Some [board_home] |} board_home empty_world);
    reflexivity.
Defined.

(** ** List resolution, in full *)

(** X5: the lists [find_lists] returns are never none, and they are lists
    of the board in the board's order. *)
Theorem find_lists_returned (board : Board) (lists_names : option string)
    (w : World) (lists_ : list TrelloList) :
  fst (find_lists board lists_names w) = Returned lists_ ->
  lists_ <> [] /\ lists_ `sublist_of` Board_list_lists board.
Proof.
  rewrite find_lists_run.
  match goal with
  | |- context [(length ?l =? 0)%nat] =>
      destruct (length l =? 0)%nat eqn:E; [discriminate|]
  end.
  cbn [fst]. intros [= <-]. split.
  - intros Hnil. rewrite Hnil in E. discriminate E.
  - destruct lists_names as [[|c s]|]; [reflexivity | apply sublist_filter | reflexivity].
Qed.

Lemma find_lists_returned_witness :
  let todo := {| List_name := "Todo"; List_list_cards := [] |} in
  let done := {| List_name := "Done"; List_list_cards := [] |} in
  [done] <> [] /\ [done] `sublist_of` [todo; done].
Proof.
  intros todo done.
  apply (find_lists_returned
           {| Board_name := "Work"; Board_list_lists := [todo; done] |}
           (Some "Done") empty_world [done]).
  reflexivity.
Defined.

(** X6: the order of the names in a non-empty filter, and their repetition,
    do not change what [find_lists] returns or raises: two filters with the
    same pieces select alike. *)
Theorem find_lists_names_order (board : Board) (names1 names2 : string)
    (w : World) :
  names1 <> "" -> names2 <> "" ->
  (forall name, name ∈ split ","%char names1 <-> name ∈ split ","%char names2) ->
  fst (find_lists board (Some names1) w) = fst (find_lists board (Some names2) w).
Proof.
  intros H1 H2 Hsame. rewrite !find_lists_run.
  destruct names1 as [|c1 s1]; [congruence|].
  destruct names2 as [|c2 s2]; [congruence|].
  rewrite (list_filter_iff
             (fun list_ => List_name list_ ∈ split ","%char (String c1 s1))
             (fun list_ => List_name list_ ∈ split ","%char (String c2 s2)))
    by (intros list_; apply Hsame).
  match goal with
  | |- context [(length ?l =? 0)%nat] => destruct (length l =? 0)%nat
  end; reflexivity.
Qed.

Lemma find_lists_names_order_witness :
  let todo := {| List_name := "Todo"; List_list_cards := [] |} in
  let doing := {| List_name := "Doing"; List_list_cards := [] |} in
  let done := {| List_name := "Done"; List_list_cards := [] |} in
  let board := {| Board_name := "Work"; Board_list_lists := [todo; doing; done] |} in
  fst (find_lists board (Some "Done,Todo") empty_world)
  = fst (find_lists board (Some "Todo,Done,Todo") empty_world).
Proof.
  intros todo doing done board.
  apply (find_lists_names_order board "Done,Todo" "Todo,Done,Todo" empty_world);
    [discriminate | discriminate |].
  intros name. change (split ","%char "Done,Todo") with ["Done"; "Todo"].
  change (split ","%char "Todo,Done,Todo") with ["Todo"; "Done"; "Todo"].
  rewrite !elem_of_cons, !elem_of_nil. tauto.
Defined.

(** With no name twice on either side, as many lists are selected as there
    are requested names that name a list. *)
Lemma selected_count (names : list string) (lists_ : list TrelloList) :
  NoDup names -> NoDup (List_name <$> lists_) ->
  length (filter (fun list_ => List_name list_ ∈ names) lists_)
  = length (filter (fun name => name ∈ List_name <$> lists_) names).
Proof.
  intros Hnames Hlists.
  rewrite <- (length_fmap List_name (filter _ lists_)).
  apply Permutation_length, NoDup_Permutation.
  - eapply sublist_NoDup; [exact Hlists|].
    apply fmap_sublist, sublist_filter.
  - apply NoDup_filter. exact Hnames.
  - intros name. rewrite list_elem_of_fmap, list_elem_of_filter. split.
    + intros [list_ [-> Hin]]. apply list_elem_of_filter in Hin as [Hn Hl].
      split; [apply list_elem_of_fmap_2; exact Hl | exact Hn].
    + intros [Hl Hn]. apply list_elem_of_fmap in Hl as [list_ [-> Hl]].
      exists list_. split; [reflexivity|].
      apply list_elem_of_filter. split; assumption.
Qed.

Lemma filter_all {A : Type} (P : A -> Prop) `{forall x, Decision (P x)}
    (l : list A) :
  Forall P l -> filter P l = l.
Proof.
  induction 1 as [|x l Hx _ IH]; [reflexivity|].
  rewrite filter_cons, decide_True by exact Hx. congruence.
Qed.

Lemma filter_length_all {A : Type} (P : A -> Prop) `{forall x, Decision (P x)}
    (l : list A) :
  length (filter P l) = length l -> Forall P l.
Proof.
  induction l as [|x l IH]; [constructor|].
  rewrite filter_cons. pose proof (length_filter P l) as Hle.
  case_decide as Hx; cbn; intros Hlen; [|lia].
  constructor; [exact Hx | apply IH; lia].
Qed.

(** X7: when the requested names are distinct and the board's list names
    are distinct, a successful [find_lists] with a non-empty filter logs the
    lists exported and nothing else if every requested name names a list of
    the board; if some requested name names none, it also logs the warning
    with the two counts, the first smaller than the second. *)
Theorem find_lists_warning (board : Board) (lists_names : string) (w : World) :
  let names := split ","%char lists_names in
  let selected :=
    filter (fun list_ => List_name list_ ∈ names) (Board_list_lists board) in
  let exporting :=
    (INFO, Text ("Exporting lists " ++ String.concat ", " (map List_name selected))) in
  lists_names <> "" ->
  NoDup names ->
  NoDup (List_name <$> Board_list_lists board) ->
  selected <> [] ->
  (Forall (fun name => name ∈ List_name <$> Board_list_lists board) names ->
   find_lists board (Some lists_names) w = (Returned selected, logged w [exporting]))
  /\ (~ Forall (fun name => name ∈ List_name <$> Board_list_lists board) names ->
      (length selected < length names)%nat
      /\ find_lists board (Some lists_names) w
         = (Returned selected,
            logged w
              [exporting;
               (WARNING,
                Text ("Found only " ++ str_of_int (Z.of_nat (length selected))
                      ++ " lists out of specified "
                      ++ str_of_int (Z.of_nat (length names))))])).
Proof.
  intros names selected exporting Hne Hnames Hlists Hsel.
  pose proof (selected_count names (Board_list_lists board) Hnames Hlists) as Hcount.
  fold selected in Hcount.
  rewrite find_lists_run.
  destruct lists_names as [|c s]; [congruence|].
  fold names. fold selected. cbn [truthy andb].
  destruct (length selected =? 0)%nat eqn:E0.
  { apply length_eqb_0 in E0. contradiction. }
  split.
  - intros Hall. rewrite (filter_all _ _ Hall) in Hcount.
    rewrite Hcount, Nat.eqb_refl. reflexivity.
  - intros Hmissing.
    assert (length selected <> length names) as Hdiff.
    { intros Heq. apply Hmissing.
      apply (filter_length_all
               (fun name : string => name ∈ List_name <$> Board_list_lists board)).
      congruence. }
    pose proof (length_filter
                  (fun name : string => name ∈ List_name <$> Board_list_lists board)
                  names) as Hle.
    rewrite <- Hcount in Hle. split; [lia|].
    destruct (Nat.eqb_spec (length selected) (length names)) as [Heq|_];
      [contradiction | reflexivity].
Qed.

Ltac decide_by_computation :=
  apply (bool_decide_unpack _); vm_compute; exact I.

Lemma find_lists_warning_witness :
  let todo := {| List_name := "Todo"; List_list_cards := [] |} in
  let done := {| List_name := "Done"; List_list_cards := [] |} in
  let board := {| Board_name := "Work"; Board_list_lists := [todo; done] |} in
  find_lists board (Some "Done,Todo") empty_world
  = (Returned [todo; done],
     logged empty_world [(INFO, Text "Exporting lists Todo, Done")])
  /\ find_lists board (Some "Done,Later") empty_world
     = (Returned [done],
        logged empty_world
          [(INFO, Text "Exporting lists Done");
           (WARNING, Text "Found only 1 lists out of specified 2")]).
Proof.
  intros todo done board. split.
  - apply (find_lists_warning board "Done,Todo" empty_world);
      [discriminate | decide_by_computation | decide_by_computation
      | vm_compute; discriminate | decide_by_computation].
  - apply (find_lists_warning board "Done,Later" empty_world);
      [discriminate | decide_by_computation | decide_by_computation
      | vm_compute; discriminate | decide_by_computation].
Defined.

(** ** The file writer, in full *)

Lemma length_append (s t : string) :
  String.length (s ++ t) = (String.length s + String.length t)%nat.
Proof. induction s as [|c s IH]; simpl; [reflexivity | rewrite IH; reflexivity]. Qed.

(** Two names with the same filename are the same name. *)
Lemma append_inj_r (s1 s2 t : string) : s1 ++ t = s2 ++ t -> s1 = s2.
Proof.
  revert s2; induction s1 as [|c1 s1 IH]; intros [|c2 s2] H; simpl in H.
  - reflexivity.
  - apply (f_equal String.length) in H. simpl in H.
    rewrite length_append in H. lia.
  - apply (f_equal String.length) in H. simpl in H.
    rewrite length_append in H. lia.
  - injection H as -> H. f_equal. apply IH. exact H.
Qed.

Lemma written_split (prefix : string) (no_numbering : bool) (board_name : string)
    (fsys : gmap string string) (list_data : ListData) :
  written false prefix no_numbering board_name fsys list_data
  = <[ld_name list_data ++ ".txt" := blocks prefix no_numbering list_data]> fsys.
Proof. reflexivity. Qed.

(** One file per list: after the loop a file holds the blocks of the last
    list that goes to it, and is as before when none does. *)
Lemma lookup_fold_left_written_split (prefix : string) (no_numbering : bool)
    (board_name : string) (lists_data : list ListData)
    (fsys : gmap string string) (filename : string) :
  fold_left (written false prefix no_numbering board_name) lists_data fsys !! filename
  = match last_written prefix no_numbering filename lists_data with
    | Some contents => Some contents
    | None => fsys !! filename
    end.
Proof.
  induction lists_data as [|ld lists_data IH] using rev_ind; [reflexivity|].
  rewrite fold_left_app. cbn [fold_left]. rewrite written_split.
  unfold last_written in *. rewrite List.filter_app. cbn [List.filter].
  destruct (String.eqb_spec (ld_name ld ++ ".txt") filename) as [<-|Hne].
  - rewrite last_snoc, lookup_insert_eq. reflexivity.
  - rewrite app_nil_r, lookup_insert_ne by exact Hne. exact IH.
Qed.

Lemma last_written_none (prefix : string) (no_numbering : bool)
    (filename : string) (lists_data : list ListData) :
  Forall (fun list_data => ld_name list_data ++ ".txt" <> filename) lists_data ->
  last_written prefix no_numbering filename lists_data = None.
Proof.
  intros Hall. unfold last_written.
  replace (List.filter _ lists_data) with (@nil ListData); [reflexivity|].
  symmetry. induction Hall as [|ld lists_data Hld _ IH]; [reflexivity|].
  cbn [List.filter].
  destruct (String.eqb_spec (ld_name ld ++ ".txt") filename); [contradiction | exact IH].
Qed.

(** X8: written one file per list, the file "<name>.txt" of a list holds
    the blocks of that list and nothing else, whatever it held before,
    provided no later list of the run has the same name (the last list of a
    name overwrites the earlier ones); a file that is no list's file is as
    it was before the run. *)
Theorem save_to_file_split_files (data : list (Logged ListData))
    (prefix : string) (no_numbering : bool) (board_name : string) (w : World) :
  let run := save_to_file data false prefix no_numbering board_name w in
  (forall earlier records list_data later,
     data = (earlier ++ (records, list_data) :: later)%list ->
     Forall (fun item => ld_name (snd item) <> ld_name list_data) later ->
     files (snd run) !! (ld_name list_data ++ ".txt")
     = Some (blocks prefix no_numbering list_data))
  /\ (forall filename,
      Forall (fun item => ld_name (snd item) ++ ".txt" <> filename) data ->
      files (snd run) !! filename = files w !! filename).
Proof.
  intros run. unfold run. rewrite save_to_file_run. cbn [snd files]. split.
  - intros earlier records list_data later -> Hlater.
    rewrite map_app, fold_left_app. cbn [map fold_left snd].
    rewrite lookup_fold_left_written_split, last_written_none.
    + rewrite written_split. apply lookup_insert_eq.
    + induction Hlater as [|item later Hitem _ IH]; constructor; [|exact IH].
      intros Heq. apply append_inj_r in Heq. contradiction.
  - intros filename Hall.
    rewrite lookup_fold_left_written_split, last_written_none; [reflexivity|].
    induction Hall as [|item rest Hitem _ IH]; constructor; assumption.
Qed.

Lemma save_to_file_split_files_witness :
  let a1 := {| ld_name := "A";
               ld_cards := [ {| cd_name := "old"; cd_desc := ""; cd_comments := "" |} ] |} in
  let b := {| ld_name := "B"; ld_cards := [] |} in
  let a2 := {| ld_name := "A";
               ld_cards := [ {| cd_name := "new"; cd_desc := "d"; cd_comments := "" |} ] |} in
  let w := {| log := []; files := {[ "A.txt" := "stale"; "C.txt" := "kept" ]};
              opened := [] |} in
  let run := save_to_file [([], a1); ([], b); ([], a2)] false "" true "Work" w in
  files (snd run) !! "A.txt" = Some ("new" ++ nl ++ "d" ++ nl)
  /\ files (snd run) !! "C.txt" = Some "kept".
Proof.
  intros a1 b a2 w run. split.
  - apply (proj1 (save_to_file_split_files [([], a1); ([], b); ([], a2)]
                    "" true "Work" w) [([], a1); ([], b)] [] a2 []);
      [reflexivity | constructor].
  - apply (proj2 (save_to_file_split_files [([], a1); ([], b); ([], a2)]
                    "" true "Work" w) "C.txt").
    repeat constructor; discriminate.
Defined.

(** X9: written one file per list, a second run over the same lists leaves
    the files as the first run left them: each file is overwritten, not
    grown. *)
Theorem save_to_file_split_rerun (data : list (Logged ListData))
    (prefix : string) (no_numbering : bool) (board_name : string) (w : World) :
  let once := snd (save_to_file data false prefix no_numbering board_name w) in
  let twice := snd (save_to_file data false prefix no_numbering board_name once) in
  files twice = files once.
Proof.
  intros once twice. unfold twice, once. rewrite !save_to_file_run.
  cbn [snd files]. apply map_eq. intros filename.
  rewrite !lookup_fold_left_written_split.
  destruct (last_written prefix no_numbering filename (map snd data)); reflexivity.
Qed.

(** In merge mode, once a list has been written the file of the board is
    there: the loop appends the blocks of all the lists to what the file
    held, the empty string if it was absent. *)
Lemma fold_left_written_merge_default (prefix : string) (no_numbering : bool)
    (board_name : string) (lists_data : list ListData)
    (fsys : gmap string string) :
  lists_data <> [] ->
  fold_left (written true prefix no_numbering board_name) lists_data fsys
  = <[board_name ++ ".txt" :=
        default "" (fsys !! (board_name ++ ".txt"))
        ++ String.concat "" (map (blocks prefix no_numbering) lists_data)]> fsys.
Proof.
  destruct lists_data as [|ld lists_data]; [congruence|]. intros _.
  cbn [fold_left map]. unfold written at 2. cbn [target fst].
  erewrite fold_left_written_merge by apply lookup_insert_eq.
  rewrite insert_insert_eq, concat_empty_cons, append_assoc. reflexivity.
Qed.

(** X10: in merge mode a second run over the same lists appends the blocks
    a second time: the file of the board then holds what it held before the
    first run, followed by the blocks of the lists twice. *)
Theorem save_to_file_merge_rerun (data : list (Logged ListData))
    (prefix : string) (no_numbering : bool) (board_name : string) (w : World) :
  let once := snd (save_to_file data true prefix no_numbering board_name w) in
  let twice := snd (save_to_file data true prefix no_numbering board_name once) in
  let filename := board_name ++ ".txt" in
  let appended :=
    String.concat "" (map (blocks prefix no_numbering) (map snd data)) in
  data <> [] ->
  files twice !! filename
  = Some (default "" (files w !! filename) ++ appended ++ appended).
Proof.
  intros once twice filename appended Hdata.
  unfold twice, once. rewrite !save_to_file_run. cbn [snd files].
  assert (map snd data <> []) as Hne by (destruct data; [congruence | discriminate]).
  rewrite (fold_left_written_merge_default _ _ _ _ (files w) Hne).
  erewrite fold_left_written_merge by apply lookup_insert_eq.
  fold filename. fold appended.
  rewrite lookup_insert_eq, append_assoc. reflexivity.
Qed.

Lemma save_to_file_merge_rerun_witness :
  let card := {| cd_name := "X"; cd_desc := "Y"; cd_comments := "" |} in
  let data := [ ([], {| ld_name := "Todo"; ld_cards := [card] |}) ] in
  let once := snd (save_to_file data true "" true "Work" empty_world) in
  let twice := snd (save_to_file data true "" true "Work" once) in
  files twice !! "Work.txt"
  = Some ("X" ++ nl ++ "Y" ++ nl ++ "X" ++ nl ++ "Y" ++ nl).
Proof.
  intros card data once twice.
  apply (save_to_file_merge_rerun data "" true "Work" empty_world).
  discriminate.
Defined.

Lemma dom_fold_left_written (merge : bool) (prefix : string) (no_numbering : bool)
    (board_name : string) (lists_data : list ListData)
    (fsys : gmap string string) :
  dom (fold_left (written merge prefix no_numbering board_name) lists_data fsys)
  = dom fsys
    ∪ list_to_set (map (fun list_data => fst (target merge board_name list_data))
                       lists_data).
Proof.
  revert fsys; induction lists_data as [|ld lists_data IH]; intros fsys.
  - cbn. rewrite union_empty_r_L. reflexivity.
  - cbn [fold_left map list_to_set]. rewrite IH. unfold written.
    rewrite dom_insert_L, (comm_L (∪) {[_]} (dom fsys)), <- (assoc_L (∪)).
    reflexivity.
Qed.

(** X11: the run removes no file, and the files there after the run are
    those there before it and those of the set logged in the last record,
    "Saved to": every file the run creates is reported. *)
Theorem save_to_file_files_reported (data : list (Logged ListData))
    (merge : bool) (prefix : string) (no_numbering : bool)
    (board_name : string) (w : World) :
  let run := save_to_file data merge prefix no_numbering board_name w in
  exists reported : gset string,
    last (log (snd run)) = Some (INFO, SavedTo reported)
    /\ dom (files (snd run)) = dom (files w) ∪ reported.
Proof.
  intros run. unfold run. rewrite save_to_file_run. cbn [snd log files].
  eexists. split.
  - rewrite !app_assoc. apply last_snoc.
  - rewrite dom_fold_left_written, map_map. reflexivity.
Qed.

(** X12: without numbering the prefix reaches no file and no log record:
    two runs that differ by the prefix only end in the same world. *)
Theorem save_to_file_prefix_unused (data : list (Logged ListData))
    (merge : bool) (prefix1 prefix2 : string) (board_name : string) (w : World) :
  save_to_file data merge prefix1 true board_name w
  = save_to_file data merge prefix2 true board_name w.
Proof.
  rewrite !save_to_file_run. unfold written, blocks, format_card.
  reflexivity.
Qed.

(** ** Fetching and formatting together *)

(** X13: fetched without comment export, a list keeps its name and its
    cards in order, and its blocks are, card after card, the numbering (if
    any), the name, a line feed, the description and a line feed, with no
    comment part. *)
Theorem get_data_blocks_without_comments (trello_list : TrelloList)
    (prefix : string) (no_numbering : bool) :
  let list_data := snd (get_data trello_list false) in
  ld_name list_data = List_name trello_list
  /\ map cd_name (ld_cards list_data) = map Card_name (List_list_cards trello_list)
  /\ blocks prefix no_numbering list_data
     = String.concat ""
         (imap (fun k card =>
                  (if no_numbering then ""
                   else prefix ++ " " ++ str_of_int (Z.of_nat k + 1) ++ ". ")
                  ++ Card_name card ++ nl ++ Card_description card ++ nl)
               (List_list_cards trello_list)).
Proof.
  intros list_data. unfold list_data, get_data. cbn [snd ld_name ld_cards].
  split; [reflexivity|]. split.
  - rewrite map_map. reflexivity.
  - unfold blocks. cbn [ld_cards].
    change (map ?f ?l) with (f <$> l). rewrite imap_fmap.
    f_equal. apply imap_ext. intros k card _.
    unfold compose, format_card, extract_comments.
    cbn [negb cd_name cd_desc cd_comments].
    destruct no_numbering; cbn [negb]; [reflexivity|].
    rewrite !append_assoc. reflexivity.
Qed.

(** ** The orchestrator, in full *)

Section MainOutcomes.

Variable lower : string -> string.

Lemma setup_client_run (env : Env) (w : World) :
  setup_client env w =
  match config_trello env with
  | Some credentials => (Returned (make_client env credentials), w)
  | None =>
      (Raised (Export CredentialsException),
       logged w
         [(ERROR, Text "There’s either no “trello” section in config.conf or no config file at all")])
  end.
Proof.
  unfold setup_client, trello_credentials, bind.
  destruct (config_trello env); reflexivity.
Qed.

(** The script raises its own exceptions while it resolves the client, the
    board and the lists only: when one leaves the suite of [main], no file
    has been opened. *)
Lemma main_suite_export_frame (env : Env) (options : Options) (w w' : World)
    (e : TrelloExportException) :
  main_suite lower env options w = (Raised (Export e), w') ->
  opened w' = opened w /\ files w' = files w.
Proof.
  unfold main_suite, bind.
  destruct (setup_client env w) as [[client|e1] w1] eqn:E1;
    apply setup_client_frame in E1 as [Ho1 Hf1];
    [|intros [= _ <-]; split; assumption].
  destruct (find_board lower client (opt_board options) w1) as [[board|e2] w2] eqn:E2;
    apply find_board_frame in E2 as [Ho2 Hf2];
    [|intros [= _ <-]; split; congruence].
  destruct (find_lists board (opt_lists options) w2) as [[lists_|e3] w3] eqn:E3;
    apply find_lists_frame in E3 as [Ho3 Hf3];
    [|intros [= _ <-]; split; congruence].
  destruct (opt_item_no_numbering options) as [nn|]; cbn [ret raise_TypeError];
    [|discriminate].
  rewrite save_to_file_run. discriminate.
Qed.

Lemma main_run (env : Env) (options : Options) (w : World) :
  main lower env options w =
  match main_suite lower env options w with
  | (Raised (Export _), w') =>
      (Returned tt, logged w' [(ERROR, Text "Export failed. See details above")])
  | other => other
  end.
Proof.
  unfold main, try_except.
  destruct (main_suite lower env options w) as [[[]|[e|]] w']; reflexivity.
Qed.

(** X14: when one of the script's own exceptions leaves the suite of the
    [try] statement of [main] (the credentials, the board or the lists did
    not resolve), [main] catches it: it returns after logging, last, the
    error "Export failed. See details above", and no file has been opened
    or changed. *)
Theorem main_failed_run (env : Env) (options : Options) (w : World)
    (e : TrelloExportException) :
  fst (main_suite lower env options w) = Raised (Export e) ->
  fst (main lower env options w) = Returned tt
  /\ last (log (snd (main lower env options w)))
     = Some (ERROR, Text "Export failed. See details above")
  /\ opened (snd (main lower env options w)) = opened w
  /\ files (snd (main lower env options w)) = files w.
Proof.
  intros Hsuite. rewrite main_run.
  destruct (main_suite lower env options w) as [r w'] eqn:E.
  cbn [fst] in Hsuite. subst r.
  apply main_suite_export_frame in E as [Ho Hf].
  cbn [fst snd logged log opened files].
  split; [reflexivity|]. split; [apply last_snoc|]. split; assumption.
Qed.

(** X15: without a [trello] section in the configuration, and likewise when
    the service rejects the credentials, [main] logs the error of the cause,
    then "Export failed. See details above", and returns; nothing else has
    changed. *)
Theorem main_credentials_failure (env : Env) (options : Options) (w : World) :
  (config_trello env = None ->
   main lower env options w
   = (Returned tt,
      logged w
        [(ERROR, Text "There’s either no “trello” section in config.conf or no config file at all");
         (ERROR, Text "Export failed. See details above")]))
  /\ (forall credentials,
        config_trello env = Some credentials ->
        Client_list_boards (make_client env credentials) = None ->
        main lower env options w
        = (Returned tt,
           logged w
             [(ERROR, Text "Invalid API key, secret, or token. Check your config.conf file");
              (ERROR, Text "Export failed. See details above")])).
Proof.
  split.
  - intros Hconfig. rewrite main_run. unfold main_suite, bind.
    rewrite setup_client_run, Hconfig. unfold logged. cbn.
    rewrite <- app_assoc. reflexivity.
  - intros credentials Hconfig Hclient. rewrite main_run.
    unfold main_suite, bind.
    rewrite setup_client_run, Hconfig, (find_board_unauthorized _ _ _ _ Hclient).
    unfold logged. cbn. rewrite <- app_assoc. reflexivity.
Qed.

(** X16: when [options] cannot be subscripted, as the [argparse.Namespace]
    of the command line cannot, no run of [main] completes its suite and no
    file is opened or changed: either the resolution fails and [main] logs
    "Export failed. See details above", or [TypeError] leaves [main]. *)
Theorem main_not_subscriptable (env : Env) (options : Options) (w : World) :
  opt_item_no_numbering options = None ->
  (exists e, fst (main_suite lower env options w) = Raised e)
  /\ opened (snd (main lower env options w)) = opened w
  /\ files (snd (main lower env options w)) = files w
  /\ (fst (main lower env options w) = Raised TypeError
      \/ last (log (snd (main lower env options w)))
         = Some (ERROR, Text "Export failed. See details above")).
Proof.
  intros Hnone.
  destruct (main_suite_not_subscriptable lower env options w Hnone)
    as [e [w' [E [Ho Hf]]]].
  rewrite main_run, E. split; [exists e; reflexivity|].
  destruct e as [e|]; cbn [fst snd logged opened files log].
  - split; [exact Ho|]. split; [exact Hf|]. right. apply last_snoc.
  - split; [exact Ho|]. split; [exact Hf|]. left. reflexivity.
Qed.

(** X17: with credentials the service accepts, a query that resolves to one
    board, a filter that selects a list and options that can be subscripted,
    [main] returns, having opened one file per selected list, in the board's
    order: the files are those the writer leaves for the lists fetched, the
    merged file bearing the name of the board as the service spells it. *)
Theorem main_exports (env : Env) (options : Options) (w : World)
    (credentials : list (string * string)) (boards : list Board)
    (board : Board) (no_numbering : bool) :
  let selected :=
    match opt_lists options with
    | None | Some EmptyString => Board_list_lists board
    | Some s =>
        filter (fun list_ => List_name list_ ∈ split ","%char s)
               (Board_list_lists board)
    end in
  let exports :=
    map (fun list_ => snd (get_data list_ (opt_comments options))) selected in
  config_trello env = Some credentials ->
  Client_list_boards (make_client env credentials) = Some boards ->
  only (exact_match lower (opt_board options)) boards board
  \/ (none (exact_match lower (opt_board options)) boards
      /\ only (substring_match lower (opt_board options)) boards board) ->
  selected <> [] ->
  opt_item_no_numbering options = Some no_numbering ->
  fst (main lower env options w) = Returned tt
  /\ opened (snd (main lower env options w))
     = (opened w
        ++ map (target (opt_merge options) (Board_name board)) exports)%list
  /\ files (snd (main lower env options w))
     = fold_left (written (opt_merge options) (opt_prefix options) no_numbering
                          (Board_name board))
                 exports (files w).
Proof.
  intros selected exports Hconfig Hclient Hboard Hselected Hitem.
  assert (exists w1, find_board lower (make_client env credentials)
                       (opt_board options) w = (Returned board, w1)
                     /\ opened w1 = opened w /\ files w1 = files w)
    as [w1 [Efind [Ho1 Hf1]]].
  { rewrite (find_board_run _ _ _ _ _ Hclient).
    destruct Hboard as [Hexact | [Hnone Hsub]].
    - rewrite (filter_only _ _ (matches_exactly_spec lower _) _ _ Hexact).
      eexists. split; [reflexivity|]. split; reflexivity.
    - rewrite (filter_none _ _ (matches_exactly_spec lower _) _ Hnone),
        (filter_only _ _ (matches_inexactly_spec lower _) _ _ Hsub).
      eexists. split; [reflexivity|]. split; reflexivity. }
  assert (exists w2, find_lists board (opt_lists options) w1 = (Returned selected, w2)
                     /\ opened w2 = opened w1 /\ files w2 = files w1)
    as [w2 [Elists [Ho2 Hf2]]].
  { rewrite find_lists_run. fold selected.
    destruct (length selected =? 0)%nat eqn:E0.
    - apply length_eqb_0 in E0. contradiction.
    - eexists. split; [reflexivity|]. split; reflexivity. }
  rewrite main_run. unfold main_suite, bind.
  rewrite setup_client_run, Hconfig, Efind, Elists, Hitem. cbn [ret].
  rewrite save_to_file_run. unfold ret. cbn [fst snd opened files].
  rewrite Ho2, Ho1, Hf2, Hf1. unfold exports. rewrite !map_map.
  split; [reflexivity|]. split; reflexivity.
Qed.

End MainOutcomes.

Lemma main_failed_run_witness :
  let options :=
    {| opt_board := "garden"; opt_lists := None; opt_prefix := "";
       opt_comments := false; opt_merge := false;
       opt_item_no_numbering := Some false |} in
  fst (main ascii_lower sample_env options empty_world) = Returned tt
  /\ last (log (snd (main ascii_lower sample_env options empty_world)))
     = Some (ERROR, Text "Export failed. See details above")
  /\ opened (snd (main ascii_lower sample_env options empty_world)) = []
  /\ files (snd (main ascii_lower sample_env options empty_world)) = ∅.
Proof.
  intros options.
  apply (main_failed_run ascii_lower sample_env options empty_world
           NoBoardException).
  vm_compute. reflexivity.
Defined.

Lemma main_credentials_failure_witness :
  main ascii_lower
       {| config_trello := None; make_client := make_client sample_env |}
       sample_options empty_world
  = (Returned tt,
     logged empty_world
       [(ERROR, Text "There’s either no “trello” section in config.conf or no config file at all");
        (ERROR, Text "Export failed. See details above")])
  /\ main ascii_lower
          {| config_trello := Some [];
             make_client := fun _ => {| Client_list_boards := None |} |}
          sample_options empty_world
     = (Returned tt,
        logged empty_world
          [(ERROR, Text "Invalid API key, secret, or token. Check your config.conf file");
           (ERROR, Text "Export failed. See details above")]).
Proof.
  split.
  - apply (proj1 (main_credentials_failure ascii_lower
                    {| config_trello := None; make_client := make_client sample_env |}
                    sample_options empty_world)).
    reflexivity.
  - apply (proj2 (main_credentials_failure ascii_lower
                    {| config_trello := Some [];
                       make_client := fun _ => {| Client_list_boards := None |} |}
                    sample_options empty_world) []); reflexivity.
Defined.

Lemma main_not_subscriptable_witness :
  let options :=
    {| opt_board := "chores"; opt_lists := None; opt_prefix := "";
       opt_comments := false; opt_merge := false;
       opt_item_no_numbering := None |} in
  (exists e, fst (main_suite ascii_lower sample_env options empty_world) = Raised e)
  /\ opened (snd (main ascii_lower sample_env options empty_world)) = []
  /\ files (snd (main ascii_lower sample_env options empty_world)) = ∅
  /\ (fst (main ascii_lower sample_env options empty_world) = Raised TypeError
      \/ last (log (snd (main ascii_lower sample_env options empty_world)))
         = Some (ERROR, Text "Export failed. See details above")).
Proof.
  intros options.
  apply (main_not_subscriptable ascii_lower sample_env options empty_world).
  reflexivity.
Defined.

Lemma main_exports_witness :
  fst (main ascii_lower sample_env sample_options empty_world) = Returned tt
  /\ opened (snd (main ascii_lower sample_env sample_options empty_world))
     = [("Todo.txt", ModeW); ("Done.txt", ModeW)]
  /\ files (snd (main ascii_lower sample_env sample_options empty_world))
     = fold_left (written false "" false "Chores")
         (map (fun list_ => snd (get_data list_ true)) (Board_list_lists sample_board))
         ∅.
Proof.
  apply (main_exports ascii_lower sample_env sample_options empty_world
           [("api_key", "k"); ("token", "t")] [board_home; sample_board]
           sample_board false).
  - reflexivity.
  - reflexivity.
  - left. exists [board_home], []. split; [reflexivity|].
    split; [reflexivity|]. split; repeat constructor; refute_exact.
  - discriminate.
  - reflexivity.
Defined.

(** ** Two more edges *)

(** X18: a list whose name holds a comma is never selected by a non-empty
    filter, since the filter is cut at every comma. *)
Theorem find_lists_comma_name (board : Board) (lists_names : string)
    (w : World) (lists_ : list TrelloList) (list_ : TrelloList) :
  (exists before after, List_name list_ = before ++ "," ++ after) ->
  lists_names <> "" ->
  fst (find_lists board (Some lists_names) w) = Returned lists_ ->
  list_ ∉ lists_.
Proof.
  intros Hcomma Hne. rewrite find_lists_run.
  destruct lists_names as [|c s]; [congruence|].
  match goal with
  | |- context [(length ?l =? 0)%nat] =>
      destruct (length l =? 0)%nat; [discriminate|]
  end.
  cbn [fst]. intros [= <-] Hin.
  apply list_elem_of_filter in Hin as [Hname _].
  apply list_elem_of_In in Hname.
  apply (split_pieces ","%char (String c s)) in Hname.
  apply contains_spec in Hcomma. congruence.
Qed.

Lemma find_lists_comma_name_witness :
  let plain := {| List_name := "A"; List_list_cards := [] |} in
  let comma := {| List_name := "A,B"; List_list_cards := [] |} in
  comma ∉ [plain].
Proof.
  intros plain comma.
  apply (find_lists_comma_name
           {| Board_name := "Work"; Board_list_lists := [comma; plain] |}
           "A,B" empty_world [plain] comma).
  - exists "A", "B". reflexivity.
  - discriminate.
  - reflexivity.
Defined.

(** X19: resolving the client, the board and the lists opens no file and
    changes none, whether the resolution succeeds or fails: only [logger] is
    used. *)
Theorem resolution_touches_no_file (lower : string -> string) (env : Env)
    (client : TrelloClient) (query : string) (board : Board)
    (lists_names : option string) (w : World) :
  (opened (snd (setup_client env w)) = opened w
   /\ files (snd (setup_client env w)) = files w)
  /\ (opened (snd (find_board lower client query w)) = opened w
      /\ files (snd (find_board lower client query w)) = files w)
  /\ (opened (snd (find_lists board lists_names w)) = opened w
      /\ files (snd (find_lists board lists_names w)) = files w).
Proof.
  split; [|split].
  - destruct (setup_client env w) as [r w'] eqn:E.
    exact (setup_client_frame _ _ _ _ E).
  - destruct (find_board lower client query w) as [r w'] eqn:E.
    exact (find_board_frame _ _ _ _ _ _ E).
  - destruct (find_lists board lists_names w) as [r w'] eqn:E.
    exact (find_lists_frame _ _ _ _ _ E).
Qed.
